(** * Component Migration Helper: a shallow embedding of [src/code.ts]

    The plugin has three parts: the name resolver ([formatComponentKey],
    [getComponentKey], [getComponentName], [copySelectedComponentKey]),
    the visual comparison generator ([generateVisualComparison]) and the
    persistence bridge ([saveMappings], [loadSavedMappings]).

    The host (the [figma] global) is not part of the repository.  Pure
    functions are embedded as functions; the functions that talk to the
    host run in a state-and-exception monad over a [World] that holds what
    the host holds (the page, the selection, the messages posted to the UI,
    the console, the client storage), with the host's answers supplied by a
    [Host] record.

    What is assumed of the host:
    - calls run one after another, an awaited call like any other;
    - [loadFontAsync], [createFrame], [createText],
      [importComponentByKeyAsync], [createInstance] and the client storage
      can throw, as the [Host] record says; assigning a property of a node,
      [appendChild], the selection, the viewport, [postMessage] and the
      console do not throw;
    - a created node is placed on the current page and stays there until
      [appendChild] moves it;
    - [clientStorage.getAsync] gives [undefined] for a key that was never
      stored. *)

From Stdlib Require Import String Ascii List Bool Arith ZArith Lia.
Import ListNotations.
Open Scope string_scope.
Set Warnings "-register-all".

(** ** JavaScript values and string helpers *)

(** A string is falsy exactly when it is empty. *)
Definition truthy (s : string) : bool :=
  match s with
  | EmptyString => false
  | String _ _ => true
  end.

(** [a || b] on strings. *)
Definition js_or (a b : string) : string :=
  if truthy a then a else b.

(** [s.includes(c)] for a one-character needle. *)
Fixpoint includes (c : ascii) (s : string) : bool :=
  match s with
  | EmptyString => false
  | String a rest => if Ascii.eqb a c then true else includes c rest
  end.

(** [xs.join(sep)] *)
Definition join (sep : string) (xs : list string) : string :=
  String.concat sep xs.

(** An object whose values are strings, as [Object.keys] enumerates it:
    the entries are listed in key iteration order and no key occurs twice. *)
Fixpoint keys_distinct (entries : list (string * string)) : bool :=
  match entries with
  | [] => true
  | (k, _) :: rest =>
      negb (existsb (String.eqb k) (map fst rest)) && keys_distinct rest
  end.

Record StringMap : Type := mkStringMap {
  entries : list (string * string);
  entries_wf : keys_distinct entries = true
}.

(** [Object.keys(o)] *)
Definition object_keys (o : StringMap) : list string :=
  map fst (entries o).

(** [o[key]]: [None] stands for [undefined]. *)
Fixpoint assoc_get (l : list (string * string)) (key : string) : option string :=
  match l with
  | [] => None
  | (k, v) :: rest => if String.eqb k key then Some v else assoc_get rest key
  end.

Definition object_get (o : StringMap) (key : string) : option string :=
  assoc_get (entries o) key.

(** A value interpolated into a template literal. *)
Definition interpolate (v : option string) : string :=
  match v with
  | Some s => s
  | None => "undefined"
  end.

(** Values that cross the storage and message boundary.  The numbers that
    occur are millisecond timestamps, kept as integers. *)
Inductive JsValue : Type :=
| JUndefined
| JNull
| JBool (b : bool)
| JNum (n : Z)
| JStr (s : string)
| JArray (items : list JsValue)
| JObject (fields : list (string * JsValue)).

(** [Array.isArray(v)] *)
Definition isArray (v : JsValue) : bool :=
  match v with
  | JArray _ => true
  | _ => false
  end.

(** ** Data model *)

Record Mapping : Type := mkMapping {
  oldKey : string;
  newKey : string;
  oldName : string;
  newName : string;
  notes : string
}.

Record ComponentInfo : Type := mkComponentInfo {
  info_key : string;
  info_name : string;
  info_id : string
}.

(** Messages posted to the UI with [figma.ui.postMessage]. *)
Inductive UiMessage : Type :=
| SelectionChange (selection : list ComponentInfo)
| KeyCopied (success : bool) (key : option string) (error : option string)
| Message (text : string) (variant : string) (timeout : Z)
| LoadedMappings (data : JsValue).

(** ** Scene nodes, as the name resolver reads them *)

Inductive NodeType : Type :=
| DOCUMENT | PAGE | FRAME | GROUP | SECTION | COMPONENT_SET | COMPONENT
| INSTANCE | TEXT | RECTANGLE | ELLIPSE | LINE | VECTOR | BOOLEAN_OPERATION.

Definition is_component_set (t : NodeType) : bool :=
  match t with
  | COMPONENT_SET => true
  | _ => false
  end.

(** The parent in [node.parent]: only its type and name are read. *)
Record ParentNode : Type := mkParent {
  parent_type : NodeType;
  parent_name : string
}.

Record ComponentNode : Type := mkComponent {
  comp_id : string;
  comp_name : string;
  comp_key : string;
  comp_parent : option ParentNode;
  comp_variantProperties : option StringMap
}.

Record InstanceNode : Type := mkInstance {
  inst_id : string;
  inst_name : string;
  inst_mainComponent : option ComponentNode;
  inst_variantProperties : option StringMap
}.

(** The kinds of scene node that are neither a component nor an instance;
    they have no [key], no [mainComponent] and no [variantProperties]. *)
Inductive OtherKind : Type :=
| OFrame | OGroup | OSection | OComponentSet | OText | ORectangle
| OEllipse | OLine | OVector | OBooleanOperation.

Record OtherNode : Type := mkOther {
  other_kind : OtherKind;
  other_id : string;
  other_name : string
}.

(** [SceneNode] is a union discriminated by [type]. *)
Inductive SceneNode : Type :=
| Component (c : ComponentNode)
| Instance (i : InstanceNode)
| Other (o : OtherNode).

Definition node_type (node : SceneNode) : NodeType :=
  match node with
  | Component _ => COMPONENT
  | Instance _ => INSTANCE
  | Other o =>
      match other_kind o with
      | OFrame => FRAME | OGroup => GROUP | OSection => SECTION
      | OComponentSet => COMPONENT_SET | OText => TEXT
      | ORectangle => RECTANGLE | OEllipse => ELLIPSE | OLine => LINE
      | OVector => VECTOR | OBooleanOperation => BOOLEAN_OPERATION
      end
  end.

Definition node_id (node : SceneNode) : string :=
  match node with
  | Component c => comp_id c
  | Instance i => inst_id i
  | Other o => other_id o
  end.

Definition node_name (node : SceneNode) : string :=
  match node with
  | Component c => comp_name c
  | Instance i => inst_name i
  | Other o => other_name o
  end.

(** [node.variantProperties], for the nodes that have the property. *)
Definition node_variantProperties (node : SceneNode) : option StringMap :=
  match node with
  | Component c => comp_variantProperties c
  | Instance i => inst_variantProperties i
  | Other _ => None
  end.

(** ** Name resolver *)

(** [formatComponentKey(key)], with [figma.fileKey] as [fileKey]
    ([None] when the host gives none). *)
Definition formatComponentKey (fileKey : option string) (key : string) : string :=
  if includes ":" key then key
  else
    match fileKey with
    | Some fk => if truthy fk then fk ++ ":" ++ key else key
    | None => key
    end.

(** [getComponentKey(node)]: [None] is [null]. *)
Definition getComponentKey (node : SceneNode) : option string :=
  match node with
  | Component c => Some (comp_key c)
  | Instance i =>
      match inst_mainComponent i with
      | Some mc =>
          (* const mainComponentId = node.mainComponent?.id *)
          if truthy (comp_id mc) then
            (* node.mainComponent?.key || null *)
            if truthy (comp_key mc) then Some (comp_key mc) else None
          else None
      | None => None
      end
  | Other _ => None
  end.

(** The [props] string built from [node.variantProperties]. *)
Definition variantProps_of (vp : option StringMap) : string :=
  match vp with
  | Some o =>
      let props :=
        join ", "
          (map (fun key => key ++ "=" ++ interpolate (object_get o key))
               (object_keys o)) in
      if truthy props then props else ""
  | None => ""
  end.

(** [getComponentName(node)] *)
Definition getComponentName (node : SceneNode) : string :=
  match node with
  | Other o => other_name o
  | _ =>
      let name := node_name node in
      (* If it's an instance, try to get the main component name *)
      let name :=
        match node with
        | Instance i =>
            match inst_mainComponent i with
            | Some mc => comp_name mc
            | None => name
            end
        | _ => name
        end in
      let name :=
        if includes "=" name then
          match node with
          | Instance i =>
              match inst_mainComponent i with
              | Some mc =>
                  match comp_parent mc with
                  | Some p =>
                      if is_component_set (parent_type p) then parent_name p
                      else name
                  | None => name
                  end
              | None => name
              end
          | Component c =>
              match comp_parent c with
              | Some p =>
                  if is_component_set (parent_type p) then parent_name p
                  else name
              | None => name
              end
          | Other _ => name
          end
        else name in
      let variantProps := variantProps_of (node_variantProperties node) in
      if truthy variantProps then name ++ "|" ++ variantProps else name
  end.

(** [handleSelectionChange()]: the message posted for a selection. *)
Definition handleSelectionChange (selection : list SceneNode) : UiMessage :=
  SelectionChange
    (flat_map
       (fun node =>
          match getComponentKey node with
          | Some componentKey =>
              if truthy componentKey then
                [mkComponentInfo componentKey (getComponentName node)
                                 (node_id node)]
              else []
          | None => []
          end)
       selection).

(** [copySelectedComponentKey()]: the [keyCopied] message posted for the
    current selection. *)
Definition copySelectedComponentKey (selection : list SceneNode) : UiMessage :=
  match selection with
  | [] => KeyCopied false None (Some "No component selected")
  | first :: _ =>
      match getComponentKey first with
      | Some componentKey =>
          if truthy componentKey then KeyCopied true (Some componentKey) None
          else KeyCopied false None (Some "Selected node is not a component")
      | None => KeyCopied false None (Some "Selected node is not a component")
      end
  end.

(** The part of a label after its base name: ['|'] and the comma-joined
    [key=value] list of the entries, in their order, when there is an
    entry; nothing otherwise. *)
Definition label_suffix (vp : option StringMap) : string :=
  match vp with
  | Some o =>
      match entries o with
      | [] => ""
      | es => "|" ++ join ", " (map (fun kv => fst kv ++ "=" ++ snd kv) es)
      end
  | None => ""
  end.

(** The node with [variantProperties] replaced. *)
Definition with_variantProperties (vp : option StringMap) (node : SceneNode)
  : SceneNode :=
  match node with
  | Component c =>
      Component (mkComponent (comp_id c) (comp_name c) (comp_key c)
                             (comp_parent c) vp)
  | Instance i =>
      Instance (mkInstance (inst_id i) (inst_name i) (inst_mainComponent i) vp)
  | Other o => Other o
  end.

(** The nodes that have a [variantProperties] property. *)
Definition exposes_variantProperties (node : SceneNode) : bool :=
  match node with
  | Component _ | Instance _ => true
  | Other _ => false
  end.

(** ** The canvas

    A node created by the plugin lives on the current page until
    [appendChild] moves it under another node, so the page is a forest.
    [page] lists the top-level nodes most recently created first; the
    children of a node are in layout order. *)

Definition NodeId : Type := nat.

Record FontName : Type := mkFont {
  family : string;
  style : string
}.

(** A colour [{ r, g, b }], in hundredths. *)
Record Color : Type := mkColor {
  red : Z;
  green : Z;
  blue : Z
}.

(** The component [importComponentByKeyAsync] resolves to. *)
Record ImportedComponent : Type := mkImported {
  imported_key : string;
  imported_name : string
}.

Inductive Value : Type :=
| VStr (s : string)
| VNum (n : Z)
| VFont (f : FontName)
| VSolid (c : Color).   (* [{ type: 'SOLID', color: c }] *)

Inductive CanvasKind : Type :=
| KFrame
| KText
| KInstance (component : ImportedComponent).

Inductive Tree : Type :=
| Node (id : NodeId) (kind : CanvasKind) (props : list (string * Value))
       (children : list Tree).

Definition tree_id (t : Tree) : NodeId :=
  match t with Node id _ _ _ => id end.

(** [node.prop = v] *)
Definition assign (prop : string) (v : Value) (t : Tree) : Tree :=
  match t with
  | Node id k ps cs => Node id k (ps ++ [(prop, v)]) cs
  end.

(** The value last assigned to a property. *)
Fixpoint prop_get (prop : string) (ps : list (string * Value)) : option Value :=
  match ps with
  | [] => None
  | (p, v) :: rest =>
      match prop_get prop rest with
      | Some v' => Some v'
      | None => if String.eqb p prop then Some v else None
      end
  end.

(** Apply [f] to the node [id] of a tree, if it is there. *)
Fixpoint update_tree (id : NodeId) (f : Tree -> Tree) (t : Tree) : option Tree :=
  match t with
  | Node i k ps cs =>
      if Nat.eqb i id then Some (f t)
      else
        match
          (fix go (ts : list Tree) : option (list Tree) :=
             match ts with
             | [] => None
             | c :: rest =>
                 match update_tree id f c with
                 | Some c' => Some (c' :: rest)
                 | None =>
                     match go rest with
                     | Some rest' => Some (c :: rest')
                     | None => None
                     end
                 end
             end) cs
        with
        | Some cs' => Some (Node i k ps cs')
        | None => None
        end
  end.

Fixpoint update_forest (id : NodeId) (f : Tree -> Tree) (ts : list Tree)
  : option (list Tree) :=
  match ts with
  | [] => None
  | t :: rest =>
      match update_tree id f t with
      | Some t' => Some (t' :: rest)
      | None =>
          match update_forest id f rest with
          | Some rest' => Some (t :: rest')
          | None => None
          end
      end
  end.

(** Take the node [id] out from under a tree: the node and what is left. *)
Fixpoint detach_below (id : NodeId) (t : Tree) : option (Tree * Tree) :=
  match t with
  | Node i k ps cs =>
      match
        (fix go (ts : list Tree) : option (Tree * list Tree) :=
           match ts with
           | [] => None
           | c :: rest =>
               if Nat.eqb (tree_id c) id then Some (c, rest)
               else
                 match detach_below id c with
                 | Some (x, c') => Some (x, c' :: rest)
                 | None =>
                     match go rest with
                     | Some (x, rest') => Some (x, c :: rest')
                     | None => None
                     end
                 end
           end) cs
      with
      | Some (x, cs') => Some (x, Node i k ps cs')
      | None => None
      end
  end.

Fixpoint detach_forest (id : NodeId) (ts : list Tree) : option (Tree * list Tree) :=
  match ts with
  | [] => None
  | t :: rest =>
      if Nat.eqb (tree_id t) id then Some (t, rest)
      else
        match detach_below id t with
        | Some (x, t') => Some (x, t' :: rest)
        | None =>
            match detach_forest id rest with
            | Some (x, rest') => Some (x, t :: rest')
            | None => None
            end
        end
  end.

(** [child] becomes the last child. *)
Definition add_child (child : Tree) (t : Tree) : Tree :=
  match t with
  | Node i k ps cs => Node i k ps (cs ++ [child])
  end.

(** [parent.appendChild(child)] on a forest: the child leaves the place it
    had and becomes the last child of the parent. *)
Definition move_under (parent child : NodeId) (ts : list Tree) : list Tree :=
  match detach_forest child ts with
  | Some (x, rest) =>
      match update_forest parent (add_child x) rest with
      | Some ts' => ts'
      | None => ts
      end
  | None => ts
  end.

(** ** The host *)

Inductive Exn : Type :=
| FontUnavailable (f : FontName)
| CreationRefused (id : NodeId)
| ImportFailed (key : string)
| InstanceRefused (c : ImportedComponent)
| StorageFailed.

Inductive LogArg : Type :=
| LStr (s : string)
| LVal (v : JsValue)
| LExn (e : Exn).

Inductive LogEntry : Type :=
| Log (args : list LogArg)
| LogError (args : list LogArg).

(** What the host answers.  Nodes are numbered as they are requested;
    [createFails n] says that the host refuses a [createFrame] or
    [createText] call for node number [n].  [importComponentByKey] gives
    [None] when the promise rejects, [loadFont] says whether
    [loadFontAsync] resolves, and [now] is what [Date.now()] reads. *)
Record Host : Type := mkHost {
  fileKey : option string;
  viewport_center : Z * Z;
  loadFont : FontName -> bool;
  createFails : NodeId -> bool;
  importComponentByKey : string -> option ImportedComponent;
  createInstanceFails : ImportedComponent -> bool;
  storageReadFails : bool;
  storageWriteFails : bool;
  now : Z
}.

Record World : Type := mkWorld {
  next_id : NodeId;
  page : list Tree;
  selection : list NodeId;
  zoomed_to : list NodeId;
  loaded_fonts : list FontName;
  posted : list UiMessage;
  console : list LogEntry;
  storage : list (string * JsValue)
}.

(** ** State and exceptions *)

Inductive Outcome (A : Type) : Type :=
| Returned (a : A)
| Thrown (e : Exn).

Arguments Returned {A} a.
Arguments Thrown {A} e.

Definition M (A : Type) : Type := World -> Outcome A * World.

Definition ret {A : Type} (a : A) : M A :=
  fun w => (Returned a, w).

Definition bind {A B : Type} (m : M A) (k : A -> M B) : M B :=
  fun w =>
    match m w with
    | (Returned a, w') => k a w'
    | (Thrown e, w') => (Thrown e, w')
    end.

Definition throw {A : Type} (e : Exn) : M A :=
  fun w => (Thrown e, w).

(** [try { m } catch (err) { handler err }]: what [m] did before it threw
    stays done. *)
Definition try_catch {A : Type} (m : M A) (handler : Exn -> M A) : M A :=
  fun w =>
    match m w with
    | (Returned a, w') => (Returned a, w')
    | (Thrown e, w') => handler e w'
    end.

Declare Scope plugin_scope.
Delimit Scope plugin_scope with plugin.
Notation "x <- c1 ;; c2" := (bind c1 (fun x => c2))
  (at level 61, c1 at next level, right associativity) : plugin_scope.
Notation "c1 ;; c2" := (bind c1 (fun _ => c2))
  (at level 61, right associativity) : plugin_scope.
Open Scope plugin_scope.

(** [for (const x of xs) { acc = body x acc }] *)
Fixpoint for_of {A S : Type} (xs : list A) (acc : S) (body : A -> S -> M S) : M S :=
  match xs with
  | [] => ret acc
  | x :: rest => acc' <- body x acc ;; for_of rest acc' body
  end.

(** ** Host calls *)

Definition set_page (p : list Tree) (w : World) : World :=
  mkWorld (next_id w) p (selection w) (zoomed_to w) (loaded_fonts w)
          (posted w) (console w) (storage w).

Definition set_console (c : list LogEntry) (w : World) : World :=
  mkWorld (next_id w) (page w) (selection w) (zoomed_to w) (loaded_fonts w)
          (posted w) c (storage w).

Definition set_storage (s : list (string * JsValue)) (w : World) : World :=
  mkWorld (next_id w) (page w) (selection w) (zoomed_to w) (loaded_fonts w)
          (posted w) (console w) s.

(** [console.log(...args)] *)
Definition console_log (args : list LogArg) : M unit :=
  fun w => (Returned tt, set_console (console w ++ [Log args]) w).

(** [console.error(...args)] *)
Definition console_error (args : list LogArg) : M unit :=
  fun w => (Returned tt, set_console (console w ++ [LogError args]) w).

(** [figma.ui.postMessage(msg)] *)
Definition postMessage (msg : UiMessage) : M unit :=
  fun w =>
    (Returned tt,
     mkWorld (next_id w) (page w) (selection w) (zoomed_to w) (loaded_fonts w)
             (posted w ++ [msg]) (console w) (storage w)).

(** [figma.currentPage.selection = ids] *)
Definition set_selection (ids : list NodeId) : M unit :=
  fun w =>
    (Returned tt,
     mkWorld (next_id w) (page w) ids (zoomed_to w) (loaded_fonts w)
             (posted w) (console w) (storage w)).

(** [figma.viewport.scrollAndZoomIntoView(ids)] *)
Definition scrollAndZoomIntoView (ids : list NodeId) : M unit :=
  fun w =>
    (Returned tt,
     mkWorld (next_id w) (page w) (selection w) ids (loaded_fonts w)
             (posted w) (console w) (storage w)).

(** The node of the next creation request, placed on the page. *)
Definition place (k : CanvasKind) (ps : list (string * Value)) : M NodeId :=
  fun w =>
    (Returned (next_id w),
     mkWorld (S (next_id w)) (Node (next_id w) k ps [] :: page w)
             (selection w) (zoomed_to w) (loaded_fonts w)
             (posted w) (console w) (storage w)).

(** A creation request the host refuses: the request is counted, nothing
    is placed. *)
Definition refuse {A : Type} : M A :=
  fun w =>
    (Thrown (CreationRefused (next_id w)),
     mkWorld (S (next_id w)) (page w) (selection w) (zoomed_to w)
             (loaded_fonts w) (posted w) (console w) (storage w)).

(** [node.prop = v] *)
Definition set_prop (id : NodeId) (prop : string) (v : Value) : M unit :=
  fun w =>
    (Returned tt,
     match update_forest id (assign prop v) (page w) with
     | Some p => set_page p w
     | None => w
     end).

(** [parent.appendChild(child)] *)
Definition appendChild (parent child : NodeId) : M unit :=
  fun w => (Returned tt, set_page (move_under parent child (page w)) w).

(** [(key in storage) ? storage[key] : undefined] *)
Fixpoint storage_get (key : string) (s : list (string * JsValue)) : JsValue :=
  match s with
  | [] => JUndefined
  | (k, v) :: rest => if String.eqb k key then v else storage_get key rest
  end.

Fixpoint storage_set (key : string) (v : JsValue) (s : list (string * JsValue))
  : list (string * JsValue) :=
  match s with
  | [] => [(key, v)]
  | (k, v') :: rest =>
      if String.eqb k key then (k, v) :: rest
      else (k, v') :: storage_set key v rest
  end.

Definition Inter (style : string) : FontName := mkFont "Inter" style.

Definition warning_marker : string := "⚠️ Component not found".

Definition success_text : string := "Visual comparison created successfully!".

Definition warning_text : string :=
  "Visual comparison created with some errors. Some components may not be available.".

Definition failure_text : string := "Failed to generate visual comparison".

Definition storage_key : string := "componentMigrationMappings".

(** [s.substring(0, n)] *)
Definition substring_to (n : nat) (s : string) : string :=
  substring 0 n s.

Section Plugin.

Variable host : Host.

(** [await figma.loadFontAsync(f)] *)
Definition loadFontAsync (f : FontName) : M unit :=
  fun w =>
    if loadFont host f then
      (Returned tt,
       mkWorld (next_id w) (page w) (selection w) (zoomed_to w)
               (loaded_fonts w ++ [f]) (posted w) (console w) (storage w))
    else (Thrown (FontUnavailable f), w).

(** [figma.createFrame()] *)
Definition createFrame : M NodeId :=
  fun w => if createFails host (next_id w) then refuse w else place KFrame [] w.

(** [figma.createText()] *)
Definition createText : M NodeId :=
  fun w => if createFails host (next_id w) then refuse w else place KText [] w.

(** [await figma.importComponentByKeyAsync(key)] *)
Definition importComponentByKeyAsync (key : string) : M ImportedComponent :=
  match importComponentByKey host key with
  | Some c => ret c
  | None => throw (ImportFailed key)
  end.

(** [component.createInstance()] *)
Definition createInstance (c : ImportedComponent) : M NodeId :=
  if createInstanceFails host c then throw (InstanceRefused c)
  else place (KInstance c) [("name", VStr (imported_name c))].

(** [await figma.clientStorage.getAsync(key)] *)
Definition getAsync (key : string) : M JsValue :=
  fun w =>
    if storageReadFails host then (Thrown StorageFailed, w)
    else (Returned (storage_get key (storage w)), w).

(** [await figma.clientStorage.setAsync(key, v)] *)
Definition setAsync (key : string) (v : JsValue) : M unit :=
  fun w =>
    if storageWriteFails host then (Thrown StorageFailed, w)
    else (Returned tt, set_storage (storage_set key v (storage w)) w).

(** ** Visual comparison generator *)

(** The body of [for (const mapping of mappings)]; the value is
    [hasErrors] after the iteration.  An imported component is an object,
    so the tests [if (oldComponent)] and [if (newComponent)] pass. *)
Definition visualize_mapping (frame : NodeId) (mapping : Mapping)
  (hasErrors : bool) : M bool :=
  try_catch
    ((* Create container for this mapping *)
     pairFrame <- createFrame ;;
     set_prop pairFrame "name"
       (VStr (js_or (oldName mapping) "Old" ++ " → "
              ++ js_or (newName mapping) "New")) ;;
     set_prop pairFrame "layoutMode" (VStr "VERTICAL") ;;
     set_prop pairFrame "layoutAlign" (VStr "STRETCH") ;;
     set_prop pairFrame "itemSpacing" (VNum 16) ;;
     set_prop pairFrame "paddingLeft" (VNum 16) ;;
     set_prop pairFrame "paddingRight" (VNum 16) ;;
     set_prop pairFrame "paddingTop" (VNum 16) ;;
     set_prop pairFrame "paddingBottom" (VNum 16) ;;
     set_prop pairFrame "fills" (VSolid (mkColor 100 100 100)) ;;
     set_prop pairFrame "strokes" (VSolid (mkColor 90 90 90)) ;;
     set_prop pairFrame "strokeWeight" (VNum 1) ;;
     set_prop pairFrame "cornerRadius" (VNum 8) ;;
     set_prop pairFrame "primaryAxisSizingMode" (VStr "AUTO") ;;
     set_prop pairFrame "counterAxisSizingMode" (VStr "AUTO") ;;
     (* OLD component section *)
     oldSection <- createFrame ;;
     set_prop oldSection "name" (VStr "OLD") ;;
     set_prop oldSection "layoutMode" (VStr "VERTICAL") ;;
     set_prop oldSection "layoutAlign" (VStr "STRETCH") ;;
     set_prop oldSection "itemSpacing" (VNum 8) ;;
     (* OLD label *)
     oldLabel <- createText ;;
     set_prop oldLabel "characters" (VStr "OLD") ;;
     set_prop oldLabel "fontSize" (VNum 12) ;;
     set_prop oldLabel "fontName" (VFont (Inter "Bold")) ;;
     set_prop oldLabel "fills" (VSolid (mkColor 60 60 60)) ;;
     appendChild oldSection oldLabel ;;
     (* OLD component name *)
     oldName_ <- createText ;;
     set_prop oldName_ "characters"
       (VStr (js_or (oldName mapping) (oldKey mapping))) ;;
     set_prop oldName_ "fontSize" (VNum 14) ;;
     set_prop oldName_ "fontName" (VFont (Inter "Medium")) ;;
     set_prop oldName_ "fills" (VSolid (mkColor 20 20 20)) ;;
     appendChild oldSection oldName_ ;;
     (* Try to create instance of OLD component *)
     try_catch
       (let formattedKey := formatComponentKey (fileKey host) (oldKey mapping) in
        console_log [LStr "Trying to import OLD component with key:";
                     LStr formattedKey] ;;
        oldComponent <- importComponentByKeyAsync formattedKey ;;
        oldInstance <- createInstance oldComponent ;;
        appendChild oldSection oldInstance)
       (fun err =>
          console_error [LStr "Failed to import OLD component:";
                         LStr (oldKey mapping); LExn err] ;;
          errorText <- createText ;;
          set_prop errorText "characters" (VStr warning_marker) ;;
          set_prop errorText "fontSize" (VNum 12) ;;
          set_prop errorText "fontName" (VFont (Inter "Regular")) ;;
          set_prop errorText "fills" (VSolid (mkColor 80 20 20)) ;;
          appendChild oldSection errorText ;;
          (* Add debug info *)
          debugText <- createText ;;
          set_prop debugText "characters"
            (VStr ("Key: " ++ substring_to 20 (oldKey mapping) ++ "...")) ;;
          set_prop debugText "fontSize" (VNum 10) ;;
          set_prop debugText "fontName" (VFont (Inter "Regular")) ;;
          set_prop debugText "fills" (VSolid (mkColor 50 50 50)) ;;
          appendChild oldSection debugText) ;;
     appendChild pairFrame oldSection ;;
     (* Arrow *)
     arrowText <- createText ;;
     set_prop arrowText "characters" (VStr "↓") ;;
     set_prop arrowText "fontSize" (VNum 24) ;;
     set_prop arrowText "fontName" (VFont (Inter "Regular")) ;;
     set_prop arrowText "fills" (VSolid (mkColor 40 40 40)) ;;
     set_prop arrowText "textAlignHorizontal" (VStr "CENTER") ;;
     appendChild pairFrame arrowText ;;
     (* NEW component section *)
     newSection <- createFrame ;;
     set_prop newSection "name" (VStr "NEW") ;;
     set_prop newSection "layoutMode" (VStr "VERTICAL") ;;
     set_prop newSection "layoutAlign" (VStr "STRETCH") ;;
     set_prop newSection "itemSpacing" (VNum 8) ;;
     (* NEW label *)
     newLabel <- createText ;;
     set_prop newLabel "characters" (VStr "NEW") ;;
     set_prop newLabel "fontSize" (VNum 12) ;;
     set_prop newLabel "fontName" (VFont (Inter "Bold")) ;;
     set_prop newLabel "fills" (VSolid (mkColor 20 60 20)) ;;
     appendChild newSection newLabel ;;
     (* NEW component name *)
     newName_ <- createText ;;
     set_prop newName_ "characters"
       (VStr (js_or (newName mapping) (newKey mapping))) ;;
     set_prop newName_ "fontSize" (VNum 14) ;;
     set_prop newName_ "fontName" (VFont (Inter "Medium")) ;;
     set_prop newName_ "fills" (VSolid (mkColor 20 20 20)) ;;
     appendChild newSection newName_ ;;
     (* Try to create instance of NEW component *)
     try_catch
       (let formattedKey := formatComponentKey (fileKey host) (newKey mapping) in
        console_log [LStr "Trying to import NEW component with key:";
                     LStr formattedKey] ;;
        newComponent <- importComponentByKeyAsync formattedKey ;;
        newInstance <- createInstance newComponent ;;
        appendChild newSection newInstance)
       (fun err =>
          console_error [LStr "Failed to import NEW component:";
                         LStr (newKey mapping); LExn err] ;;
          errorText <- createText ;;
          set_prop errorText "characters" (VStr warning_marker) ;;
          set_prop errorText "fontSize" (VNum 12) ;;
          set_prop errorText "fontName" (VFont (Inter "Regular")) ;;
          set_prop errorText "fills" (VSolid (mkColor 80 20 20)) ;;
          appendChild newSection errorText ;;
          (* Add debug info *)
          debugText <- createText ;;
          set_prop debugText "characters"
            (VStr ("Key: " ++ substring_to 20 (newKey mapping) ++ "...")) ;;
          set_prop debugText "fontSize" (VNum 10) ;;
          set_prop debugText "fontName" (VFont (Inter "Regular")) ;;
          set_prop debugText "fills" (VSolid (mkColor 50 50 50)) ;;
          appendChild newSection debugText) ;;
     appendChild pairFrame newSection ;;
     (* Add to main frame *)
     appendChild frame pairFrame ;;
     ret hasErrors)
    (fun err =>
       console_error [LStr "Error creating visual for mapping:"; LExn err] ;;
       ret true).

(** [generateVisualComparison(mappings)] *)
Definition generateVisualComparison (mappings : list Mapping) : M unit :=
  try_catch
    ((* Load the Inter font FIRST, before creating any text nodes *)
     loadFontAsync (Inter "Regular") ;;
     loadFontAsync (Inter "Medium") ;;
     loadFontAsync (Inter "Bold") ;;
     (* Create a new frame for the comparison *)
     frame <- createFrame ;;
     set_prop frame "name" (VStr "Component Migration Visual") ;;
     set_prop frame "layoutMode" (VStr "HORIZONTAL") ;;
     set_prop frame "layoutAlign" (VStr "STRETCH") ;;
     set_prop frame "itemSpacing" (VNum 32) ;;
     set_prop frame "paddingLeft" (VNum 32) ;;
     set_prop frame "paddingRight" (VNum 32) ;;
     set_prop frame "paddingTop" (VNum 32) ;;
     set_prop frame "paddingBottom" (VNum 32) ;;
     set_prop frame "fills" (VSolid (mkColor 98 98 98)) ;;
     set_prop frame "primaryAxisSizingMode" (VStr "AUTO") ;;
     set_prop frame "counterAxisSizingMode" (VStr "AUTO") ;;
     (* Position the frame in view *)
     set_prop frame "x" (VNum (fst (viewport_center host) - 400)) ;;
     set_prop frame "y" (VNum (snd (viewport_center host) - 300)) ;;
     hasErrors <- for_of mappings false (visualize_mapping frame) ;;
     (* Select the frame and zoom to it *)
     set_selection [frame] ;;
     scrollAndZoomIntoView [frame] ;;
     postMessage
       (Message (if hasErrors then warning_text else success_text)
                (if hasErrors then "warning" else "info")
                3000))
    (fun err =>
       console_error [LStr "Error generating visuals:"; LExn err] ;;
       postMessage (Message failure_text "error" 3000)).

(** ** Persistence bridge *)

(** [saveMappings(data)] *)
Definition saveMappings (data : JsValue) : M unit :=
  try_catch
    (setAsync storage_key data)
    (fun err => console_error [LStr "Error saving mappings:"; LExn err]).

(** [loadSavedMappings()]; [now host] is what [Date.now()] reads. *)
Definition loadSavedMappings : M unit :=
  try_catch
    (saved <- getAsync storage_key ;;
     console_log [LStr "Loaded from storage:"; LVal saved] ;;
     (* If saved is an array, it's the old format - wrap it *)
     let dataToSend :=
       if isArray saved then
         JObject [("mappings", saved);
                  ("timestamp", JNum (now host - 7 * 24 * 60 * 60 * 1000))]
       else saved in
     postMessage (LoadedMappings dataToSend))
    (fun err =>
       console_error [LStr "Error loading mappings:"; LExn err] ;;
       postMessage (LoadedMappings JNull)).

End Plugin.

(** ** Reading the canvas *)

(** What a viewer sees of a node: a frame with its name and children, a
    text with its characters, an instance with its component. *)
Inductive Outline : Type :=
| OutFrame (name : string) (children : list Outline)
| OutText (characters : string)
| OutInstance (c : ImportedComponent).

Definition text_prop (prop : string) (ps : list (string * Value)) : string :=
  match prop_get prop ps with
  | Some (VStr s) => s
  | _ => ""
  end.

Fixpoint outline (t : Tree) : Outline :=
  match t with
  | Node _ k ps cs =>
      match k with
      | KFrame => OutFrame (text_prop "name" ps) (map outline cs)
      | KText => OutText (text_prop "characters" ps)
      | KInstance c => OutInstance c
      end
  end.

(** The error markers below a node. *)
Fixpoint count_markers (o : Outline) : nat :=
  match o with
  | OutFrame _ cs => list_sum (map count_markers cs)
  | OutText s => if String.eqb s warning_marker then 1 else 0
  | OutInstance _ => 0
  end.

(** The rendered instances below a node. *)
Fixpoint count_instances (o : Outline) : nat :=
  match o with
  | OutFrame _ cs => list_sum (map count_instances cs)
  | OutText _ => 0
  | OutInstance _ => 1
  end.

(** Whether the import-and-instantiate step goes through for a key, and
    with which component. *)
Definition import_and_instantiate (host : Host) (key : string)
  : option ImportedComponent :=
  match importComponentByKey host (formatComponentKey (fileKey host) key) with
  | Some c => if createInstanceFails host c then None else Some c
  | None => None
  end.

(** The sub-block of one side of a mapping: the label, the name, then the
    instance or else the error marker with its debug line. *)
Definition section_outline (host : Host) (label name key : string) : Outline :=
  OutFrame label
    ([OutText label; OutText (js_or name key)]
     ++ match import_and_instantiate host key with
        | Some c => [OutInstance c]
        | None =>
            [OutText warning_marker;
             OutText ("Key: " ++ substring_to 20 key ++ "...")]
        end).

(** The pair block of a mapping. *)
Definition pair_outline (host : Host) (m : Mapping) : Outline :=
  OutFrame (js_or (oldName m) "Old" ++ " → " ++ js_or (newName m) "New")
    [section_outline host "OLD" (oldName m) (oldKey m);
     OutText "↓";
     section_outline host "NEW" (newName m) (newKey m)].

(** What one import-and-instantiate step writes to the console. *)
Definition import_log (host : Host) (label key : string) : list LogEntry :=
  Log [LStr ("Trying to import " ++ label ++ " component with key:");
       LStr (formatComponentKey (fileKey host) key)]
  :: match importComponentByKey host (formatComponentKey (fileKey host) key) with
     | Some c =>
         if createInstanceFails host c then
           [LogError [LStr ("Failed to import " ++ label ++ " component:");
                      LStr key; LExn (InstanceRefused c)]]
         else []
     | None =>
         [LogError [LStr ("Failed to import " ++ label ++ " component:");
                    LStr key;
                    LExn (ImportFailed (formatComponentKey (fileKey host) key))]]
     end.

Definition mapping_log (host : Host) (m : Mapping) : list LogEntry :=
  import_log host "OLD" (oldKey m) ++ import_log host "NEW" (newKey m).

(** The three faces load and no creation request is refused. *)
Definition obliging (host : Host) : Prop :=
  (forall f, loadFont host f = true) /\ (forall n, createFails host n = false).

(** The properties the run gives the root frame. *)
Definition root_props (host : Host) : list (string * Value) :=
  [("name", VStr "Component Migration Visual");
   ("layoutMode", VStr "HORIZONTAL");
   ("layoutAlign", VStr "STRETCH");
   ("itemSpacing", VNum 32);
   ("paddingLeft", VNum 32);
   ("paddingRight", VNum 32);
   ("paddingTop", VNum 32);
   ("paddingBottom", VNum 32);
   ("fills", VSolid (mkColor 98 98 98));
   ("primaryAxisSizingMode", VStr "AUTO");
   ("counterAxisSizingMode", VStr "AUTO");
   ("x", VNum (fst (viewport_center host) - 400));
   ("y", VNum (snd (viewport_center host) - 300))].

(** The setup of a run fails: one of the three faces does not load, or the
    host refuses to create the root frame. *)
Definition setup_fails (host : Host) (w : World) : bool :=
  negb (loadFont host (Inter "Regular"))
  || negb (loadFont host (Inter "Medium"))
  || negb (loadFont host (Inter "Bold"))
  || createFails host (next_id w).

(** Nothing is stored under the key. *)
Definition storage_absent (key : string) (s : list (string * JsValue)) : bool :=
  negb (existsb (fun kv => String.eqb (fst kv) key) s).

(** ** Sample inputs *)

Definition empty_world : World :=
  mkWorld 0 [] [] [] [] [] [] [].

(** A host in which importing ["BAD"] fails and importing ["GOOD"] works. *)
Definition bad_good_host : Host :=
  mkHost None (0, 0)%Z (fun _ => true) (fun _ => false)
    (fun key => if String.eqb key "GOOD" then Some (mkImported "GOOD" "B")
                else None)
    (fun _ => false) false false 1700000000000.

Definition bad_good : Mapping := mkMapping "BAD" "GOOD" "A" "B" "".

Definition ab_map : StringMap :=
  mkStringMap [("a", "1"); ("b", "2")] eq_refl.

Definition button_set : ParentNode := mkParent COMPONENT_SET "Button".

Definition plain_component : ComponentNode :=
  mkComponent "1:2" "Card" "abc123" (Some (mkParent FRAME "Library")) None.

Definition variant_component : ComponentNode :=
  mkComponent "3:4" "Size=Large, State=Default" "def456" (Some button_set)
              (Some ab_map).

Definition variant_instance : InstanceNode :=
  mkInstance "7:8" "Button" (Some variant_component) (Some ab_map).

Definition plain_instance : InstanceNode :=
  mkInstance "9:10" "My card" (Some plain_component) None.

(** An instance whose main component the host does not give. *)
Definition instance_without_main : InstanceNode :=
  mkInstance "11:12" "Detached" None None.

(** An instance whose main component carries an empty key. *)
Definition keyless_component : ComponentNode :=
  mkComponent "13:14" "Local" "" None None.

Definition instance_of_keyless : InstanceNode :=
  mkInstance "15:16" "Local" (Some keyless_component) None.

Definition some_frame : OtherNode := mkOther OFrame "17:18" "Frame 1".

(** A host on which the bold face does not load. *)
Definition fontless_host : Host :=
  mkHost None (0, 0)%Z (fun f => negb (String.eqb (style f) "Bold"))
    (fun _ => false) (fun _ => None) (fun _ => false) false false 0.

(** A host that refuses every creation request. *)
Definition refusing_host : Host :=
  mkHost None (0, 0)%Z (fun _ => true) (fun _ => true) (fun _ => None)
    (fun _ => false) false false 0.

(** A host that refuses the fourth creation request and nothing else. *)
Definition stingy_host : Host :=
  mkHost None (0, 0)%Z (fun _ => true) (fun n => Nat.eqb n 3)
    (fun key => Some (mkImported key "C")) (fun _ => false) false false 0.

(** A host whose storage cannot be read. *)
Definition unreadable_host : Host :=
  mkHost None (0, 0)%Z (fun _ => true) (fun _ => false) (fun _ => None)
    (fun _ => false) true false 0.

Definition legacy_blob : JsValue :=
  JArray [JObject [("oldKey", JStr "a"); ("newKey", JStr "b");
                   ("oldName", JStr "A"); ("newName", JStr "B");
                   ("notes", JStr "")]].

(** A world whose storage holds the legacy bare array. *)
Definition legacy_world : World :=
  mkWorld 0 [] [] [] [] [] [] [(storage_key, legacy_blob)].

(** ** The other functions of the plugin *)

(** [s.split(c)] for a one-character separator: the pieces between the
    separators, never an empty array. *)
Fixpoint split (c : ascii) (s : string) : list string :=
  match s with
  | EmptyString => [""]
  | String a rest =>
      if Ascii.eqb a c then "" :: split c rest
      else
        match split c rest with
        | piece :: pieces => String a piece :: pieces
        | [] => [String a ""]
        end
  end.

(** [parts[i]] read into a template or a property: [None] is [undefined]. *)
Definition part (i : nat) (parts : list string) : option string :=
  nth_error parts i.

(** [getLibraryNameFromKey(componentKey)] of [code.js].  [split] does not
    throw on a string, so the [catch] is not entered, and its result is
    never empty, so piece 0 is always a string. *)
Definition getLibraryNameFromKey (componentKey : string) : string :=
  interpolate (part 0 (split ":" componentKey)).

(** The name a comparison block of [part_001] shows for a mapping:
    [(name || 'Component').split('|')], whose piece 0 is the clean name and
    whose piece 1, when truthy, is the variant line. *)
Definition name_parts (name : string) : list string :=
  split "|" (js_or name "Component").

Definition clean_name (name : string) : string :=
  interpolate (part 0 (name_parts name)).

Definition variant_line (name : string) : option string :=
  match part 1 (name_parts name) with
  | Some v => if truthy v then Some v else None
  | None => None
  end.

(** The nodes [handleSelectionChange] lists. *)
Definition resolvable (node : SceneNode) : bool :=
  match getComponentKey node with
  | Some k => truthy k
  | None => false
  end.

(** The UI side of the world is as it was: what was posted, the selection,
    the viewport target and the storage. *)
Definition untouched (w w' : World) : Prop :=
  posted w' = posted w /\ selection w' = selection w /\
  zoomed_to w' = zoomed_to w /\ storage w' = storage w.

(** A program that leaves the UI side of the world alone, however it ends. *)
Definition discreet {A : Type} (m : M A) : Prop :=
  forall w, untouched w (snd (m w)).

(** Every value the program returns satisfies [P]. *)
Definition yields {A : Type} (P : A -> Prop) (m : M A) : Prop :=
  forall w a w', m w = (Returned a, w') -> P a.

(** A host that creates the first node it is asked for and refuses the rest. *)
Definition root_only_host : Host :=
  mkHost None (0, 0)%Z (fun _ => true) (fun n => negb (Nat.eqb n 0))
    (fun key => Some (mkImported key "C")) (fun _ => false) false false 0.

(** The messages the UI sends, by [msg.type]. *)
Inductive PluginMessage : Type :=
| CopySelectedKey
| GenerateVisuals (mappings : list Mapping)
| SaveMappings (data : JsValue)
| LoadMappings
| GetInitialSelection
| OtherMessage (type : string).

(** [figma.ui.onmessage], with what the resolver reads of the current
    selection as [scene]. *)
Definition onmessage (host : Host) (scene : list SceneNode) (msg : PluginMessage)
  : M unit :=
  match msg with
  | CopySelectedKey => postMessage (copySelectedComponentKey scene)
  | GenerateVisuals mappings => generateVisualComparison host mappings
  | SaveMappings data => saveMappings host data
  | LoadMappings => loadSavedMappings host
  | GetInitialSelection => postMessage (handleSelectionChange scene)
  | OtherMessage _ => ret tt
  end.

(** The reply a message gets, if any. *)
Definition is_reply_to (msg : PluginMessage) (reply : UiMessage) : bool :=
  match msg, reply with
  | CopySelectedKey, KeyCopied _ _ _ => true
  | GenerateVisuals _, Message _ _ _ => true
  | LoadMappings, LoadedMappings _ => true
  | GetInitialSelection, SelectionChange _ => true
  | _, _ => false
  end.

Definition expects_reply (msg : PluginMessage) : bool :=
  match msg with
  | SaveMappings _ | OtherMessage _ => false
  | _ => true
  end.

(** A host whose storage cannot be written. *)
Definition unwritable_host : Host :=
  mkHost None (0, 0)%Z (fun _ => true) (fun _ => false) (fun _ => None)
    (fun _ => false) false true 0.

(** What the loop of [insertComponentsByKeys] carries from key to key.
    Coordinates and sizes are kept as integers. *)
Record InsertState : Type := mkInsertState {
  insertedComponents : list NodeId;
  errors : list string;
  currentX : Z;
  currentY : Z
}.

(** The [componentInsertionResult] message. *)
Record InsertionResult : Type := mkInsertionResult {
  result_success : bool;
  insertedCount : nat;
  errorCount : nat;
  result_errors : list string
}.

(** [`Invalid component key: ${key}`] *)
Definition invalid_key (key : string) : string :=
  "Invalid component key: " ++ key.

Section Insertion.

Variable host : Host.

(** [instance.width] and [instance.height] of an instance of a component. *)
Variable instance_size : ImportedComponent -> Z * Z.

(** The body of [for (const key of keys)] in [insertComponentsByKeys].  An
    import resolves to a component or rejects, so the [else] of
    [if (component)] is not entered. *)
Definition insert_key (key : string) (st : InsertState) : M InsertState :=
  try_catch
    ((* Format the component key *)
     let formattedKey := formatComponentKey (fileKey host) key in
     (* Import the component *)
     component <- importComponentByKeyAsync host formattedKey ;;
     (* Create instance *)
     instance <- createInstance host component ;;
     (* Position the instance *)
     set_prop instance "x" (VNum (currentX st)) ;;
     set_prop instance "y" (VNum (currentY st)) ;;
     (* Move position for next component (stack horizontally) *)
     let x := (currentX st + fst (instance_size component) + 20)%Z in
     (* If we've gone too far right, move to next row *)
     if (x >? fst (viewport_center host) + 400)%Z then
       ret (mkInsertState (insertedComponents st ++ [instance]) (errors st)
              (fst (viewport_center host))
              (currentY st + snd (instance_size component) + 20)%Z)
     else
       ret (mkInsertState (insertedComponents st ++ [instance]) (errors st)
              x (currentY st)))
    (fun error =>
       console_error [LStr "Error importing component:"; LStr key; LExn error] ;;
       ret (mkInsertState (insertedComponents st)
              (errors st ++ [invalid_key key])
              (currentX st) (currentY st))).

(** [insertComponentsByKeys(keys)] of [code.js].  The fields of the
    [componentInsertionResult] message it posts last are the value returned
    here. *)
Definition insertComponentsByKeys (keys : list string) : M InsertionResult :=
  try_catch
    (st <- for_of keys
             (mkInsertState [] [] (fst (viewport_center host))
                            (snd (viewport_center host)))
             insert_key ;;
     (* Select all inserted components *)
     match insertedComponents st with
     | [] => ret tt
     | _ =>
         set_selection (insertedComponents st) ;;
         scrollAndZoomIntoView (insertedComponents st)
     end ;;
     (* Send result back to UI *)
     ret (mkInsertionResult (Nat.ltb 0 (length (insertedComponents st)))
            (length (insertedComponents st)) (length (errors st))
            (errors st)))
    (fun error =>
       console_error [LStr "Error in insertComponentsByKeys:"; LExn error] ;;
       ret (mkInsertionResult false 0 1 ["Failed to insert components"])).

End Insertion.

(** The keys whose import-and-instantiate step goes through. *)
Definition insertable (host : Host) (key : string) : bool :=
  match import_and_instantiate host key with
  | Some _ => true
  | None => false
  end.

(** The [x] last assigned to a node. *)
Definition tree_x (t : Tree) : option Z :=
  match t with
  | Node _ _ ps _ =>
      match prop_get "x" ps with
      | Some (VNum x) => Some x
      | _ => None
      end
  end.

(** A position in the row that starts at the viewport centre and is 400
    wide. *)
Definition in_row (host : Host) (x : Z) : Prop :=
  (fst (viewport_center host) <= x <= fst (viewport_center host) + 400)%Z.

(** * Properties *)

(** ** JavaScript helpers *)

Lemma truthy_true (s : string) : truthy s = true <-> s <> "".
Proof.
  destruct s; simpl; split; intro H; try discriminate; try reflexivity.
  now contradiction H.
Qed.

Lemma truthy_false (s : string) : truthy s = false <-> s = "".
Proof.
  destruct s; simpl; split; intro H; try discriminate; reflexivity.
Qed.

Lemma truthy_append (a b : string) : truthy (a ++ b) = truthy a || truthy b.
Proof. destruct a; reflexivity. Qed.

Lemma append_empty_r (s : string) : s ++ "" = s.
Proof. induction s as [|c s IH]; simpl; [reflexivity | now rewrite IH]. Qed.

(** [includes] finds the character exactly when the string splits around it. *)
Lemma includes_spec (c : ascii) (s : string) :
  includes c s = true <-> exists pre post, s = pre ++ String c post.
Proof.
  induction s as [|a s IH]; simpl.
  - split; [discriminate|]. intros (pre & post & E). destruct pre; discriminate.
  - destruct (Ascii.eqb_spec a c) as [->|Hne].
    + split; [|reflexivity]. intros _. now exists "", s.
    + rewrite IH. split.
      * intros (pre & post & ->). now exists (String a pre), post.
      * intros (pre & post & E). destruct pre as [|b pre]; simpl in E.
        -- injection E as E1 E2. contradiction.
        -- injection E as E1 E2. now exists pre, post.
  Qed.

Lemma join_cons_truthy (sep x : string) (xs : list string) :
  truthy x = true -> truthy (join sep (x :: xs)) = true.
Proof.
  intros Hx. unfold join. simpl. destruct xs; [exact Hx|].
  now rewrite truthy_append, Hx.
Qed.

Lemma assoc_get_absent (l : list (string * string)) (k : string) :
  existsb (String.eqb k) (map fst l) = false -> assoc_get l k = None.
Proof.
  induction l as [|[k' v'] l IH]; simpl; [reflexivity|].
  rewrite (String.eqb_sym k k'). destruct (String.eqb k' k); simpl;
    [discriminate | exact IH].
Qed.

(** In an object every listed key reads back the value listed with it. *)
Lemma assoc_get_in (l : list (string * string)) (k v : string) :
  keys_distinct l = true -> In (k, v) l -> assoc_get l k = Some v.
Proof.
  induction l as [|[k' v'] l IH]; simpl; [contradiction|].
  intros Hd [E|Hin].
  - injection E as -> ->. now rewrite String.eqb_refl.
  - apply andb_prop in Hd as [Hfresh Hd].
    destruct (String.eqb_spec k' k) as [->|_]; [|now apply IH].
    apply negb_true_iff in Hfresh.
    rewrite (assoc_get_absent l k Hfresh) in IH.
    specialize (IH Hd Hin). discriminate.
Qed.

Lemma keys_then_values (o : StringMap) :
  map (fun key => key ++ "=" ++ interpolate (object_get o key)) (object_keys o)
  = map (fun kv => fst kv ++ "=" ++ snd kv) (entries o).
Proof.
  unfold object_keys, object_get. rewrite map_map.
  apply map_ext_in. intros [k v] Hin. simpl.
  now rewrite (assoc_get_in _ _ _ (entries_wf o) Hin).
Qed.

(** The two-step tail of [getComponentName] appends [label_suffix]. *)
Lemma label_tail (name : string) (vp : option StringMap) :
  (if truthy (variantProps_of vp) then name ++ "|" ++ variantProps_of vp
   else name)
  = name ++ label_suffix vp.
Proof.
  destruct vp as [o|]; [|simpl; now rewrite append_empty_r].
  unfold variantProps_of, label_suffix. rewrite keys_then_values.
  destruct (entries o) as [|[k v] es].
  - simpl. now rewrite append_empty_r.
  - assert (T : truthy (join ", " (map (fun kv => fst kv ++ "=" ++ snd kv)
                                      ((k, v) :: es))) = true).
    { simpl map. apply join_cons_truthy.
      rewrite truthy_append. simpl. apply orb_true_r. }
    now rewrite !T.
Qed.

(** ** Name resolver *)

(** C5.  A key that contains [':'] is returned unchanged; a key without
    [':'] is prefixed with the document's file key and [':'] when the host
    supplies a file key (one that is not the empty string), and is returned
    unchanged when the host supplies none.  The function is total, so no
    error is raised.  The three sample calls of the specification are
    included. *)
Theorem formatComponentKey_cases (ambient : option string) (rawKey : string) :
  (includes ":" rawKey = true -> formatComponentKey ambient rawKey = rawKey) /\
  (includes ":" rawKey = false ->
   forall ns, ambient = Some ns -> ns <> "" ->
   formatComponentKey ambient rawKey = ns ++ ":" ++ rawKey) /\
  (includes ":" rawKey = false ->
   ambient = None \/ ambient = Some "" ->
   formatComponentKey ambient rawKey = rawKey) /\
  formatComponentKey (Some "FK1") "abc123" = "FK1:abc123" /\
  formatComponentKey ambient "FK1:abc123" = "FK1:abc123" /\
  formatComponentKey None "abc123" = "abc123".
Proof.
  unfold formatComponentKey. repeat split.
  - intros ->. reflexivity.
  - intros -> ns -> Hns. apply truthy_true in Hns. now rewrite Hns.
  - intros -> [-> | ->]; reflexivity.
Qed.

Lemma formatComponentKey_cases_witness :
  formatComponentKey (Some "FK1") "4f2a" = "FK1:4f2a".
Proof.
  apply (proj1 (proj2 (formatComponentKey_cases (Some "FK1") "4f2a"))
           eq_refl "FK1" eq_refl).
  discriminate.
Defined.

(** C2, as the code has it.  A component resolves to its own key.  An
    instance resolves to the key of its main component when the main
    component is present and its id and its key are not empty, and to
    [null] when the main component is absent or its id or key is empty.
    Every other kind of node resolves to [null].  The instance's own id is
    never the answer, and the function is total. *)
Theorem getComponentKey_cases :
  (forall c, getComponentKey (Component c) = Some (comp_key c)) /\
  (forall i mc,
     inst_mainComponent i = Some mc -> comp_id mc <> "" -> comp_key mc <> "" ->
     getComponentKey (Instance i) = Some (comp_key mc)) /\
  (forall i,
     inst_mainComponent i = None \/
     (exists mc, inst_mainComponent i = Some mc /\
                 (comp_id mc = "" \/ comp_key mc = "")) ->
     getComponentKey (Instance i) = None) /\
  (forall o, getComponentKey (Other o) = None).
Proof.
  repeat split; try reflexivity.
  - intros i mc E Hid Hkey. simpl. rewrite E.
    apply truthy_true in Hid, Hkey. now rewrite Hid, Hkey.
  - intros i [E | (mc & E & [Hid | Hkey])]; simpl; rewrite E; try reflexivity.
    + apply truthy_false in Hid. now rewrite Hid.
    + apply truthy_false in Hkey. rewrite Hkey. now destruct (truthy (comp_id mc)).
Qed.

Lemma getComponentKey_cases_witness :
  getComponentKey (Instance variant_instance) = Some "def456".
Proof.
  apply (proj1 (proj2 getComponentKey_cases) variant_instance variant_component
           eq_refl); discriminate.
Defined.

(** C2, as the specification states it, fails on instances: an instance whose main
    component is absent resolves to [null], and so does an instance whose
    main component is present with an empty key, where the specification promises
    that component's key. *)
Lemma getComponentKey_instance_counterexample :
  (node_type (Instance instance_without_main) = INSTANCE /\
   getComponentKey (Instance instance_without_main) = None) /\
  (inst_mainComponent instance_of_keyless = Some keyless_component /\
   getComponentKey (Instance instance_of_keyless) = None /\
   getComponentKey (Instance instance_of_keyless)
   <> Some (comp_key keyless_component)).
Proof.
  split; [split; reflexivity|].
  split; [reflexivity|]. split; [reflexivity | discriminate].
Qed.

(** C3.  The label of a component or of an instance is a base name followed
    by [label_suffix].  When the raw name (the component's name; for an
    instance the name of its main component) has no ['='], the base name is
    the raw name.  When the raw name has an ['='] and the parent of the
    component (for an instance: of its main component) is a component set,
    the base name is the name of that parent. *)
Theorem getComponentName_base :
  (forall c,
     includes "=" (comp_name c) = false ->
     getComponentName (Component c)
     = comp_name c ++ label_suffix (comp_variantProperties c)) /\
  (forall i mc,
     inst_mainComponent i = Some mc ->
     includes "=" (comp_name mc) = false ->
     getComponentName (Instance i)
     = comp_name mc ++ label_suffix (inst_variantProperties i)) /\
  (forall c p,
     includes "=" (comp_name c) = true ->
     comp_parent c = Some p -> parent_type p = COMPONENT_SET ->
     getComponentName (Component c)
     = parent_name p ++ label_suffix (comp_variantProperties c)) /\
  (forall i mc p,
     inst_mainComponent i = Some mc ->
     includes "=" (comp_name mc) = true ->
     comp_parent mc = Some p -> parent_type p = COMPONENT_SET ->
     getComponentName (Instance i)
     = parent_name p ++ label_suffix (inst_variantProperties i)).
Proof.
  repeat split.
  - intros c H. unfold getComponentName. simpl node_name.
    rewrite H. apply label_tail.
  - intros i mc E H. unfold getComponentName. rewrite E, H. apply label_tail.
  - intros c p H E T. unfold getComponentName. simpl node_name.
    rewrite H, E, T. apply label_tail.
  - intros i mc p E H Ep T. unfold getComponentName. rewrite E, H, Ep, T.
    apply label_tail.
Qed.

Lemma getComponentName_base_witness :
  getComponentName (Component plain_component) = "Card" /\
  getComponentName (Instance plain_instance) = "Card" /\
  getComponentName (Component variant_component) = "Button|a=1, b=2" /\
  getComponentName (Instance variant_instance) = "Button|a=1, b=2".
Proof.
  destruct getComponentName_base as (H1 & H2 & H3 & H4).
  split; [|split; [|split]].
  - exact (H1 plain_component eq_refl).
  - exact (H2 plain_instance plain_component eq_refl eq_refl).
  - exact (H3 variant_component button_set eq_refl eq_refl eq_refl).
  - exact (H4 variant_instance variant_component button_set
              eq_refl eq_refl eq_refl eq_refl).
Defined.

(** An instance whose main component is absent keeps its own name as base. *)
Lemma getComponentName_instance_without_main (i : InstanceNode) :
  inst_mainComponent i = None ->
  getComponentName (Instance i)
  = inst_name i ++ label_suffix (inst_variantProperties i).
Proof.
  intros E. unfold getComponentName. rewrite E. simpl node_name.
  destruct (includes "=" (inst_name i)); apply label_tail.
Qed.

(** A node that is neither a component nor an instance is labelled with its
    raw name. *)
Lemma getComponentName_other (o : OtherNode) :
  getComponentName (Other o) = other_name o.
Proof. reflexivity. Qed.

(** The base name does not look at the variant properties. *)
Lemma getComponentName_split (node : SceneNode) (vp : option StringMap) :
  exposes_variantProperties node = true ->
  getComponentName (with_variantProperties vp node)
  = getComponentName (with_variantProperties None node) ++ label_suffix vp.
Proof.
  destruct node as [c|i|o]; [| |discriminate]; intros _;
    unfold getComponentName; simpl; rewrite ?append_empty_r.
  - destruct (includes "=" (comp_name c)); [|apply label_tail].
    destruct (comp_parent c) as [p|]; [|apply label_tail].
    destruct (is_component_set (parent_type p)); apply label_tail.
  - destruct (inst_mainComponent i) as [mc|].
    + destruct (includes "=" (comp_name mc)); [|apply label_tail].
      destruct (comp_parent mc) as [p|]; [|apply label_tail].
      destruct (is_component_set (parent_type p)); apply label_tail.
    + destruct (includes "=" (inst_name i)); apply label_tail.
Qed.

Lemma with_own_variantProperties (node : SceneNode) :
  with_variantProperties (node_variantProperties node) node = node.
Proof. destruct node as [[]|[]|]; reflexivity. Qed.

(** C4.  For a node that exposes variant properties, the label is the label
    the node would have without them (its base name) followed, when the map
    has an entry, by ['|'] and the [key=value] pairs of the entries in
    their iteration order joined with [", "]; when the map is empty or
    absent the label is the base name alone.  The base name is computed
    without the map, so the suffix depends on the map only, whether or not
    the base name was replaced by the name of the component set. *)
Theorem getComponentName_suffix (node : SceneNode) :
  exposes_variantProperties node = true ->
  (forall o,
     node_variantProperties node = Some o -> entries o <> [] ->
     getComponentName node
     = getComponentName (with_variantProperties None node)
       ++ "|" ++ join ", " (map (fun kv => fst kv ++ "=" ++ snd kv) (entries o)))
  /\
  (node_variantProperties node = None \/
   (exists o, node_variantProperties node = Some o /\ entries o = []) ->
   getComponentName node = getComponentName (with_variantProperties None node))
  /\
  (forall vp other,
     exposes_variantProperties other = true ->
     exists suffix,
       getComponentName (with_variantProperties vp node)
       = getComponentName (with_variantProperties None node) ++ suffix /\
       getComponentName (with_variantProperties vp other)
       = getComponentName (with_variantProperties None other) ++ suffix).
Proof.
  intros Hn. repeat split.
  - intros o E Hne.
    rewrite <- (with_own_variantProperties node) at 1.
    rewrite (getComponentName_split node _ Hn), E. unfold label_suffix.
    destruct (entries o); [contradiction | reflexivity].
  - intros H. rewrite <- (with_own_variantProperties node) at 1.
    rewrite (getComponentName_split node _ Hn).
    destruct H as [-> | (o & -> & E)]; unfold label_suffix; rewrite ?E;
      apply append_empty_r.
  - intros vp other Ho. exists (label_suffix vp).
    split; now apply getComponentName_split.
Qed.

Lemma getComponentName_suffix_witness :
  getComponentName (Component variant_component) = "Button|a=1, b=2".
Proof.
  exact (proj1 (getComponentName_suffix (Component variant_component) eq_refl)
           ab_map eq_refl ltac:(discriminate)).
Defined.

(** C10.  [copySelectedComponentKey] looks at the first selected node only.
    With an empty selection the reply is the failure ["No component
    selected"].  Otherwise the reply is the one the first node alone would
    get: success with key [k] exactly when the first node resolves to a
    key [k] that is not empty, and the failure ["Selected node is not a
    component"] when the first node resolves to [null] or to the empty
    string, whatever the rest of the selection holds. *)
Theorem copySelectedComponentKey_first_only :
  copySelectedComponentKey [] = KeyCopied false None (Some "No component selected")
  /\
  (forall first rest,
     copySelectedComponentKey (first :: rest) = copySelectedComponentKey [first])
  /\
  (forall first rest k,
     copySelectedComponentKey (first :: rest) = KeyCopied true (Some k) None
     <-> getComponentKey first = Some k /\ k <> "")
  /\
  (forall first rest,
     getComponentKey first = None \/ getComponentKey first = Some "" ->
     copySelectedComponentKey (first :: rest)
     = KeyCopied false None (Some "Selected node is not a component")).
Proof.
  split; [reflexivity|]. split; [reflexivity|]. split.
  - intros first rest k. simpl. split.
    + intros H. destruct (getComponentKey first) as [k'|]; [|discriminate].
      destruct (truthy k') eqn:T; [|discriminate]. injection H as <-.
      split; [reflexivity | now apply truthy_true].
    + intros [E Hk]. rewrite E. apply truthy_true in Hk. now rewrite Hk.
  - intros first rest [E | E]; simpl; now rewrite E.
Qed.

Lemma copySelectedComponentKey_first_only_witness :
  copySelectedComponentKey [Other some_frame; Component plain_component]
  = KeyCopied false None (Some "Selected node is not a component").
Proof.
  apply (proj2 (proj2 (proj2 copySelectedComponentKey_first_only))).
  left. reflexivity.
Defined.

(** ** Running host calls *)

Section HostCalls.

Variables (n : NodeId) (pg : list Tree) (sel zoom : list NodeId)
          (fonts : list FontName) (msgs : list UiMessage)
          (logs : list LogEntry) (store : list (string * JsValue)).

Lemma set_prop_head id prop v k ps cs :
  set_prop id prop v (mkWorld n (Node id k ps cs :: pg) sel zoom fonts msgs logs store)
  = (Returned tt,
     mkWorld n (Node id k (ps ++ [(prop, v)]) cs :: pg) sel zoom fonts msgs logs store).
Proof. unfold set_prop. simpl. rewrite Nat.eqb_refl. reflexivity. Qed.

Lemma appendChild_heads parent child kp pp cp kc pc cc :
  appendChild parent child
    (mkWorld n (Node child kc pc cc :: Node parent kp pp cp :: pg)
             sel zoom fonts msgs logs store)
  = (Returned tt,
     mkWorld n (Node parent kp pp (cp ++ [Node child kc pc cc]) :: pg)
             sel zoom fonts msgs logs store).
Proof.
  unfold appendChild, move_under. simpl. rewrite Nat.eqb_refl. simpl.
  rewrite Nat.eqb_refl. reflexivity.
Qed.

Lemma console_log_run args :
  console_log args (mkWorld n pg sel zoom fonts msgs logs store)
  = (Returned tt, mkWorld n pg sel zoom fonts msgs (logs ++ [Log args]) store).
Proof. reflexivity. Qed.

Lemma console_error_run args :
  console_error args (mkWorld n pg sel zoom fonts msgs logs store)
  = (Returned tt, mkWorld n pg sel zoom fonts msgs (logs ++ [LogError args]) store).
Proof. reflexivity. Qed.

Variable host : Host.

Lemma createFrame_run :
  createFails host n = false ->
  createFrame host (mkWorld n pg sel zoom fonts msgs logs store)
  = (Returned n,
     mkWorld (S n) (Node n KFrame [] [] :: pg) sel zoom fonts msgs logs store).
Proof. unfold createFrame. simpl. intros ->. reflexivity. Qed.

Lemma createText_run :
  createFails host n = false ->
  createText host (mkWorld n pg sel zoom fonts msgs logs store)
  = (Returned n,
     mkWorld (S n) (Node n KText [] [] :: pg) sel zoom fonts msgs logs store).
Proof. unfold createText. simpl. intros ->. reflexivity. Qed.

Lemma import_run key c w :
  importComponentByKey host key = Some c ->
  importComponentByKeyAsync host key w = (Returned c, w).
Proof. unfold importComponentByKeyAsync. intros ->. reflexivity. Qed.

Lemma import_thrown key w :
  importComponentByKey host key = None ->
  importComponentByKeyAsync host key w = (Thrown (ImportFailed key), w).
Proof. unfold importComponentByKeyAsync. intros ->. reflexivity. Qed.

Lemma createInstance_run c :
  createInstanceFails host c = false ->
  createInstance host c (mkWorld n pg sel zoom fonts msgs logs store)
  = (Returned n,
     mkWorld (S n) (Node n (KInstance c) [("name", VStr (imported_name c))] [] :: pg)
             sel zoom fonts msgs logs store).
Proof. unfold createInstance. intros ->. reflexivity. Qed.

Lemma createInstance_thrown c w :
  createInstanceFails host c = true ->
  createInstance host c w = (Thrown (InstanceRefused c), w).
Proof. unfold createInstance. intros ->. reflexivity. Qed.

End HostCalls.

Lemma createFrame_thrown (host : Host) (w : World) :
  createFails host (next_id w) = true ->
  createFrame host w
  = (Thrown (CreationRefused (next_id w)),
     mkWorld (S (next_id w)) (page w) (selection w) (zoomed_to w)
             (loaded_fonts w) (posted w) (console w) (storage w)).
Proof. unfold createFrame. intros ->. reflexivity. Qed.

Lemma loadFontAsync_run (host : Host) (f : FontName) (w : World) :
  loadFont host f = true ->
  loadFontAsync host f w
  = (Returned tt,
     mkWorld (next_id w) (page w) (selection w) (zoomed_to w)
             (loaded_fonts w ++ [f]) (posted w) (console w) (storage w)).
Proof. unfold loadFontAsync. intros ->. reflexivity. Qed.

Lemma loadFontAsync_thrown (host : Host) (f : FontName) (w : World) :
  loadFont host f = false ->
  loadFontAsync host f w = (Thrown (FontUnavailable f), w).
Proof. unfold loadFontAsync. intros ->. reflexivity. Qed.

(** The effect of the host call at the head of a run. *)
Ltac host_call :=
  lazymatch goal with
  | |- set_prop _ _ _ _ = _ => apply set_prop_head
  | |- appendChild _ _ _ = _ => apply appendChild_heads
  | |- console_log _ _ = _ => apply console_log_run
  | |- console_error _ _ = _ => apply console_error_run
  | |- createFrame _ _ = _ =>
      first [ apply createFrame_run; solve [auto]
            | apply createFrame_thrown; eassumption ]
  | |- createText _ _ = _ => apply createText_run; solve [auto]
  | |- importComponentByKeyAsync _ _ _ = _ =>
      first [ apply import_run; eassumption
            | apply import_thrown; eassumption ]
  | |- createInstance _ _ _ = _ =>
      first [ apply createInstance_run; eassumption
            | apply createInstance_thrown; eassumption ]
  | |- loadFontAsync _ _ _ = _ =>
      first [ apply loadFontAsync_run; solve [auto]
            | apply loadFontAsync_thrown; eassumption ]
  end.

(** Big-step evaluation of a program on a world, as proof search. *)
Lemma eval_bind {A B : Type} (m : M A) (k : A -> M B) (w w1 : World) (a : A) r :
  m w = (Returned a, w1) -> k a w1 = r -> bind m k w = r.
Proof. unfold bind. now intros -> <-. Qed.

Lemma eval_bind_thrown {A B : Type} (m : M A) (k : A -> M B) (w w1 : World) (e : Exn) :
  m w = (Thrown e, w1) -> bind m k w = (Thrown e, w1).
Proof. unfold bind. now intros ->. Qed.

Lemma eval_try {A : Type} (m : M A) (h : Exn -> M A) (w w1 : World) (a : A) :
  m w = (Returned a, w1) -> try_catch m h w = (Returned a, w1).
Proof. unfold try_catch. now intros ->. Qed.

Lemma eval_try_thrown {A : Type} (m : M A) (h : Exn -> M A) (w w1 : World) (e : Exn) r :
  m w = (Thrown e, w1) -> h e w1 = r -> try_catch m h w = r.
Proof. unfold try_catch. now intros -> <-. Qed.

Ltac run_with leaf :=
  cbv beta zeta;
  lazymatch goal with
  | |- bind _ _ _ = _ =>
      first [ eapply eval_bind; [ run_with leaf | run_with leaf ]
            | eapply eval_bind_thrown; run_with leaf ]
  | |- try_catch _ _ _ = _ =>
      first [ eapply eval_try; run_with leaf
            | eapply eval_try_thrown; [ run_with leaf | run_with leaf ] ]
  | |- _ => first [ host_call | leaf | reflexivity ]
  end.

Ltac run := run_with fail.

(** ** The loop body *)

(** When no creation request is refused, one iteration appends the pair
    block of its mapping to the root frame, whatever the two imports do,
    and leaves [hasErrors] as it was. *)
Lemma visualize_mapping_run (host : Host) (frame : NodeId) (m : Mapping)
  (b : bool) (w : World) (rk : CanvasKind) (rps : list (string * Value))
  (kids old : list Tree) :
  (forall n, createFails host n = false) ->
  page w = Node frame rk rps kids :: old ->
  exists pair w',
    visualize_mapping host frame m b w = (Returned b, w') /\
    page w' = Node frame rk rps (kids ++ [pair])%list :: old /\
    outline pair = pair_outline host m /\
    console w' = (console w ++ mapping_log host m)%list /\
    selection w' = selection w /\ zoomed_to w' = zoomed_to w /\
    loaded_fonts w' = loaded_fonts w /\ posted w' = posted w /\
    storage w' = storage w.
Proof.
  intros Hc Hp. destruct w as [n pg s z f p c st]. simpl in Hp. subst pg.
  unfold pair_outline, section_outline, mapping_log, import_log,
    import_and_instantiate.
  destruct (importComponentByKey host
              (formatComponentKey (fileKey host) (oldKey m))) as [co|] eqn:Eo;
    [destruct (createInstanceFails host co) eqn:Fo|];
    (destruct (importComponentByKey host
                 (formatComponentKey (fileKey host) (newKey m))) as [cn|] eqn:En;
     [destruct (createInstanceFails host cn) eqn:Fn|]);
    (eexists; eexists; split; [unfold visualize_mapping; run|]);
    simpl;
    (split; [reflexivity|]); (split; [reflexivity|]);
    (split; [now rewrite <- ?app_assoc|]); repeat split.
Qed.

Lemma for_of_visualize_run (host : Host) (frame : NodeId) (ms : list Mapping) :
  forall (b : bool) (w : World) rk rps kids old,
    (forall n, createFails host n = false) ->
    page w = Node frame rk rps kids :: old ->
    exists pairs w',
      for_of ms b (visualize_mapping host frame) w = (Returned b, w') /\
      page w' = Node frame rk rps (kids ++ pairs)%list :: old /\
      map outline pairs = map (pair_outline host) ms /\
      console w' = (console w ++ flat_map (mapping_log host) ms)%list /\
      selection w' = selection w /\ zoomed_to w' = zoomed_to w /\
      loaded_fonts w' = loaded_fonts w /\ posted w' = posted w /\
      storage w' = storage w.
Proof.
  induction ms as [|m ms IH]; intros b w rk rps kids old Hc Hp.
  - exists [], w. simpl. rewrite !app_nil_r. now repeat split.
  - destruct (visualize_mapping_run host frame m b w rk rps kids old Hc Hp)
      as (pair & w1 & E1 & P1 & O1 & C1 & S1 & Z1 & F1 & M1 & T1).
    destruct (IH b w1 rk rps (kids ++ [pair])%list old Hc P1)
      as (pairs & w2 & E2 & P2 & O2 & C2 & S2 & Z2 & F2 & M2 & T2).
    exists (pair :: pairs), w2. simpl. unfold bind. rewrite E1, E2.
    split; [reflexivity|]. split; [now rewrite P2, <- app_assoc|].
    split; [now rewrite O1, O2|].
    split; [now rewrite C2, C1, <- app_assoc|].
    repeat split; congruence.
Qed.

(** ** The whole run *)

(** On an obliging host the run returns, leaves one root frame on top of the
    page with one pair block per mapping in input order, and reports
    success, whatever the imports do. *)
Lemma generateVisualComparison_run (host : Host) (ms : list Mapping) (w : World) :
  obliging host ->
  exists w',
    generateVisualComparison host ms w = (Returned tt, w') /\
    exists pairs,
      page w' = Node (next_id w) KFrame (root_props host) pairs :: page w /\
      map outline pairs = map (pair_outline host) ms /\
      console w' = (console w ++ flat_map (mapping_log host) ms)%list /\
      selection w' = [next_id w] /\
      zoomed_to w' = [next_id w] /\
      posted w' = (posted w ++ [Message success_text "info" 3000])%list /\
      storage w' = storage w.
Proof.
  intros [Hf Hc]. destruct w as [n pg s z f p c st].
  destruct (for_of_visualize_run host n ms false
              (mkWorld (S n) (Node n KFrame (root_props host) [] :: pg) s z
                 (((f ++ [Inter "Regular"]) ++ [Inter "Medium"]) ++ [Inter "Bold"])
                 p c st)
              KFrame (root_props host) [] pg Hc eq_refl)
    as (pairs & w2 & E2 & P2 & O2 & C2 & S2 & Z2 & F2 & M2 & T2).
  exists (mkWorld (next_id w2) (page w2) [n] [n] (loaded_fonts w2)
            (posted w2 ++ [Message success_text "info" 3000])
            (console w2) (storage w2)).
  split.
  - unfold generateVisualComparison. run_with ltac:(exact E2).
  - exists pairs. simpl in *. rewrite M2, T2. now repeat split.
Qed.

(** The run never throws to its caller. *)
Lemma generateVisualComparison_returns (host : Host) (ms : list Mapping) (w : World) :
  exists w', generateVisualComparison host ms w = (Returned tt, w').
Proof.
  unfold generateVisualComparison, try_catch.
  destruct (bind _ _ w) as [[[]|e] w1]; eexists; reflexivity.
Qed.

(** ** Visual comparison generator *)

(** C1 at its sample input: the import of ["BAD"] fails, the import of
    ["GOOD"] works and nothing else goes wrong.  The run returns and builds
    one pair block that holds one error marker and one instance, as the
    specification says; the summary it posts is the success text with
    variant ["info"], where the specification expects the warning. *)
Lemma generateVisualComparison_bad_good :
  fst (generateVisualComparison bad_good_host [bad_good] empty_world)
  = Returned tt /\
  map outline
    (page (snd (generateVisualComparison bad_good_host [bad_good] empty_world)))
  = [OutFrame "Component Migration Visual"
       [OutFrame "A → B"
          [OutFrame "OLD"
             [OutText "OLD"; OutText "A"; OutText "⚠️ Component not found";
              OutText "Key: BAD..."];
           OutText "↓";
           OutFrame "NEW"
             [OutText "NEW"; OutText "B";
              OutInstance (mkImported "GOOD" "B")]]]] /\
  map (fun t => (count_markers (outline t), count_instances (outline t)))
    (page (snd (generateVisualComparison bad_good_host [bad_good] empty_world)))
  = [(1, 1)] /\
  posted (snd (generateVisualComparison bad_good_host [bad_good] empty_world))
  = [Message "Visual comparison created successfully!" "info" 3000].
Proof. vm_compute. repeat split. Qed.

(** Import failures never reach the summary: on an obliging host the
    summary is the success text for every mapping list and every outcome
    of the imports. *)
Lemma generateVisualComparison_reports_success (host : Host) (ms : list Mapping)
  (w : World) :
  obliging host ->
  posted (snd (generateVisualComparison host ms w))
  = (posted w ++ [Message success_text "info" 3000])%list.
Proof.
  intros H.
  destruct (generateVisualComparison_run host ms w H)
    as (w' & E & pairs & _ & _ & _ & _ & _ & P & _).
  now rewrite E.
Qed.

(** The warning is posted when the construction of a pair block fails: here
    the host refuses to create the label of the first block. *)
Lemma generateVisualComparison_warning_example :
  posted (snd (generateVisualComparison stingy_host [bad_good] empty_world))
  = [Message warning_text "warning" 3000] /\
  map outline
    (page (snd (generateVisualComparison stingy_host [bad_good] empty_world)))
  = [OutFrame "OLD" []; OutFrame "A → B" [];
     OutFrame "Component Migration Visual" []].
Proof. vm_compute. repeat split. Qed.

(** C6.  On a host that loads the faces and refuses no creation request,
    for every mapping list and whatever each import does, the run returns
    without throwing and the root frame holds one pair block per mapping,
    in input order.  The pair block of a mapping is [pair_outline]: its OLD
    section, the arrow and its NEW section, each section with its label and
    name followed by the instance when its own import-and-instantiate step
    goes through and by the error marker with its debug line when that
    step fails.  So a failed import puts a marker in its own section and
    changes nothing else: the sibling section and the blocks of the later
    mappings are what their own imports make them.  The console shows both
    imports of every mapping being tried. *)
Theorem generateVisualComparison_partial_failure (host : Host)
  (ms : list Mapping) (w : World) :
  obliging host ->
  exists w' pairs,
    generateVisualComparison host ms w = (Returned tt, w') /\
    page w' = Node (next_id w) KFrame (root_props host) pairs :: page w /\
    map outline pairs = map (pair_outline host) ms /\
    console w' = (console w ++ flat_map (mapping_log host) ms)%list.
Proof.
  intros H.
  destruct (generateVisualComparison_run host ms w H)
    as (w' & E & pairs & P & O & C & _).
  now exists w', pairs.
Qed.

Lemma generateVisualComparison_partial_failure_witness :
  exists w' pairs,
    generateVisualComparison bad_good_host [bad_good; bad_good] empty_world
    = (Returned tt, w') /\
    page w' = Node 0 KFrame (root_props bad_good_host) pairs :: [] /\
    map outline pairs = map (pair_outline bad_good_host) [bad_good; bad_good] /\
    console w'
    = ([] ++ flat_map (mapping_log bad_good_host) [bad_good; bad_good])%list.
Proof.
  apply (generateVisualComparison_partial_failure bad_good_host
           [bad_good; bad_good] empty_world).
  split; intros; reflexivity.
Defined.

(** The marker of a section is its own: a section whose import fails
    holds the marker, a section whose import works holds the instance. *)
Lemma section_outline_cases (host : Host) (label name key : string) :
  (import_and_instantiate host key = None ->
   section_outline host label name key
   = OutFrame label
       [OutText label; OutText (js_or name key); OutText warning_marker;
        OutText ("Key: " ++ substring_to 20 key ++ "...")]) /\
  (forall c, import_and_instantiate host key = Some c ->
   section_outline host label name key
   = OutFrame label [OutText label; OutText (js_or name key); OutInstance c]).
Proof.
  unfold section_outline. split; [intros -> | intros c ->]; reflexivity.
Qed.

(** C7.  When one of the three faces does not load, or the host refuses to
    create the root frame, the run returns without throwing, posts the one
    failure message and leaves the page, the selection and the viewport as
    they were: no root frame and no pair block is on the canvas. *)
Theorem generateVisualComparison_fatal (host : Host) (ms : list Mapping)
  (w : World) :
  setup_fails host w = true ->
  exists w',
    generateVisualComparison host ms w = (Returned tt, w') /\
    page w' = page w /\
    selection w' = selection w /\
    zoomed_to w' = zoomed_to w /\
    posted w' = (posted w ++ [Message failure_text "error" 3000])%list.
Proof.
  unfold setup_fails. intros H. destruct w as [n pg s z f p c st].
  simpl in H.
  destruct (loadFont host (Inter "Regular")) eqn:R;
    [destruct (loadFont host (Inter "Medium")) eqn:Md;
     [destruct (loadFont host (Inter "Bold")) eqn:B|]|];
    simpl in H; try discriminate;
    (eexists; split; [unfold generateVisualComparison; run|]);
    now repeat split.
Qed.

Lemma generateVisualComparison_fatal_witness :
  (exists w',
     generateVisualComparison fontless_host [bad_good] empty_world
     = (Returned tt, w') /\
     page w' = [] /\ selection w' = [] /\ zoomed_to w' = [] /\
     posted w' = ([] ++ [Message failure_text "error" 3000])%list) /\
  (exists w',
     generateVisualComparison refusing_host [bad_good] empty_world
     = (Returned tt, w') /\
     page w' = [] /\ selection w' = [] /\ zoomed_to w' = [] /\
     posted w' = ([] ++ [Message failure_text "error" 3000])%list).
Proof.
  split.
  - exact (generateVisualComparison_fatal fontless_host [bad_good] empty_world
             eq_refl).
  - exact (generateVisualComparison_fatal refusing_host [bad_good] empty_world
             eq_refl).
Defined.

(** ** Persistence bridge *)

Lemma storage_get_absent (key : string) (s : list (string * JsValue)) :
  storage_absent key s = true -> storage_get key s = JUndefined.
Proof.
  unfold storage_absent. induction s as [|[k v] s IH]; simpl; [reflexivity|].
  destruct (String.eqb k key); simpl; [discriminate | exact IH].
Qed.

Lemma storage_get_set (key : string) (v : JsValue) (s : list (string * JsValue)) :
  storage_get key (storage_set key v s) = v.
Proof.
  induction s as [|[k v'] s IH]; simpl.
  - now rewrite String.eqb_refl.
  - destruct (String.eqb k key) eqn:E; simpl; now rewrite E.
Qed.

(** What a load posts when the read goes through. *)
Lemma loadSavedMappings_read (host : Host) (w : World) :
  storageReadFails host = false ->
  fst (loadSavedMappings host w) = Returned tt /\
  posted (snd (loadSavedMappings host w))
  = (posted w
     ++ [LoadedMappings
           (if isArray (storage_get storage_key (storage w)) then
              JObject [("mappings", storage_get storage_key (storage w));
                       ("timestamp", JNum (now host - 604800000))]
            else storage_get storage_key (storage w))])%list.
Proof.
  intros H. unfold loadSavedMappings, try_catch, bind, getAsync. rewrite H.
  split; reflexivity.
Qed.

(** What a load posts when the read fails. *)
Lemma loadSavedMappings_unreadable (host : Host) (w : World) :
  storageReadFails host = true ->
  fst (loadSavedMappings host w) = Returned tt /\
  posted (snd (loadSavedMappings host w))
  = (posted w ++ [LoadedMappings JNull])%list.
Proof.
  intros H. unfold loadSavedMappings, try_catch, bind, getAsync. rewrite H.
  split; reflexivity.
Qed.

(** C8.  When the read goes through and the stored value is a bare array,
    the load posts the array wrapped as [{mappings, timestamp}] with the
    timestamp seven days (604800000 ms) before the reading of the clock;
    a stored value that already has the [{mappings, timestamp}] shape is
    posted as it is. *)
Theorem loadSavedMappings_legacy (host : Host) (w : World) :
  storageReadFails host = false ->
  fst (loadSavedMappings host w) = Returned tt /\
  (forall items,
     storage_get storage_key (storage w) = JArray items ->
     posted (snd (loadSavedMappings host w))
     = (posted w
        ++ [LoadedMappings
              (JObject [("mappings", JArray items);
                        ("timestamp",
                         JNum (now host - 7 * 24 * 60 * 60 * 1000))])])%list) /\
  (forall mappings timestamp,
     storage_get storage_key (storage w)
     = JObject [("mappings", mappings); ("timestamp", timestamp)] ->
     posted (snd (loadSavedMappings host w))
     = (posted w
        ++ [LoadedMappings
              (JObject [("mappings", mappings); ("timestamp", timestamp)])])%list).
Proof.
  intros H. destruct (loadSavedMappings_read host w H) as [R P].
  split; [exact R|]. split.
  - intros items E. rewrite P, E. reflexivity.
  - intros mappings timestamp E. rewrite P, E. reflexivity.
Qed.

Lemma loadSavedMappings_legacy_witness :
  posted (snd (loadSavedMappings bad_good_host legacy_world))
  = [LoadedMappings
       (JObject [("mappings", legacy_blob);
                 ("timestamp", JNum (1700000000000 - 604800000))])].
Proof.
  exact (proj1 (proj2 (loadSavedMappings_legacy bad_good_host legacy_world
                         eq_refl))
           _ eq_refl).
Defined.

(** C9, as the specification states it, fails on an absent store: the read gives
    [undefined], and the load posts [undefined], not [null]. *)
Lemma loadSavedMappings_absent_counterexample :
  storage empty_world = [] /\
  storageReadFails bad_good_host = false /\
  loadSavedMappings bad_good_host empty_world
  = (Returned tt,
     mkWorld 0 [] [] [] [] [LoadedMappings JUndefined]
       [Log [LStr "Loaded from storage:"; LVal JUndefined]] []) /\
  posted (snd (loadSavedMappings bad_good_host empty_world))
  <> [LoadedMappings JNull].
Proof.
  split; [reflexivity|]. split; [reflexivity|]. split; [reflexivity|].
  discriminate.
Qed.

(** C9, as the code has it.  A load never throws and posts exactly one
    [loadedMappings] message.  When the read fails the data is [null].
    When nothing is stored under the key the data is [undefined], the
    value the read gave; when [null] is stored the data is [null]. *)
Theorem loadSavedMappings_no_data (host : Host) (w : World) :
  fst (loadSavedMappings host w) = Returned tt /\
  (exists data,
     posted (snd (loadSavedMappings host w))
     = (posted w ++ [LoadedMappings data])%list) /\
  (storageReadFails host = true ->
   posted (snd (loadSavedMappings host w))
   = (posted w ++ [LoadedMappings JNull])%list) /\
  (storageReadFails host = false ->
   storage_absent storage_key (storage w) = true ->
   posted (snd (loadSavedMappings host w))
   = (posted w ++ [LoadedMappings JUndefined])%list) /\
  (storageReadFails host = false ->
   storage_get storage_key (storage w) = JNull ->
   posted (snd (loadSavedMappings host w))
   = (posted w ++ [LoadedMappings JNull])%list).
Proof.
  destruct (storageReadFails host) eqn:F.
  - destruct (loadSavedMappings_unreadable host w F) as [R P].
    split; [exact R|]. split; [eexists; exact P|].
    split; [intros _; exact P|]. split; discriminate.
  - destruct (loadSavedMappings_read host w F) as [R P].
    split; [exact R|]. split; [eexists; exact P|].
    split; [discriminate|]. split.
    + intros _ A. rewrite P, (storage_get_absent _ _ A). reflexivity.
    + intros _ E. rewrite P, E. reflexivity.
Qed.

Lemma loadSavedMappings_no_data_witness :
  posted (snd (loadSavedMappings unreadable_host legacy_world))
  = [LoadedMappings JNull] /\
  posted (snd (loadSavedMappings bad_good_host empty_world))
  = [LoadedMappings JUndefined].
Proof.
  split.
  - exact (proj1 (proj2 (proj2 (loadSavedMappings_no_data unreadable_host
                                  legacy_world)))
             eq_refl).
  - exact (proj1 (proj2 (proj2 (proj2 (loadSavedMappings_no_data bad_good_host
                                         empty_world))))
             eq_refl eq_refl).
Defined.

(** A save never throws: a failed write is logged and nothing else. *)
Lemma saveMappings_returns (host : Host) (data : JsValue) (w : World) :
  fst (saveMappings host data w) = Returned tt /\
  posted (snd (saveMappings host data w)) = posted w.
Proof.
  unfold saveMappings, try_catch, setAsync.
  destruct (storageWriteFails host); split; reflexivity.
Qed.

(** A value that is not an array comes back from a load as it was saved. *)
Lemma save_then_load (host : Host) (data : JsValue) (w : World) :
  storageWriteFails host = false ->
  storageReadFails host = false ->
  isArray data = false ->
  posted (snd (loadSavedMappings host (snd (saveMappings host data w))))
  = (posted w ++ [LoadedMappings data])%list.
Proof.
  intros Hw Hr Ha.
  rewrite (proj2 (loadSavedMappings_read host _ Hr)).
  unfold saveMappings, try_catch, setAsync. rewrite Hw. simpl.
  now rewrite storage_get_set, Ha.
Qed.

(** * Further properties *)

(** ** Keys, library names and labels *)

Lemma includes_append (c : ascii) (a b : string) :
  includes c (a ++ b) = includes c a || includes c b.
Proof.
  induction a as [|x a IH]; simpl; [reflexivity|].
  destruct (Ascii.eqb x c); [reflexivity | exact IH].
Qed.

(** The first occurrence of a character splits the string. *)
Lemma includes_first (c : ascii) (s : string) :
  includes c s = true ->
  exists pre post, s = pre ++ String c post /\ includes c pre = false.
Proof.
  induction s as [|a s IH]; simpl; [discriminate|].
  destruct (Ascii.eqb_spec a c) as [->|Hne].
  - intros _. now exists "", s.
  - intros H. destruct (IH H) as (pre & post & -> & Hpre).
    exists (String a pre), post. split; [reflexivity|]. simpl.
    destruct (Ascii.eqb_spec a c); [contradiction | exact Hpre].
Qed.

Lemma split_nonempty (c : ascii) (s : string) : split c s <> [].
Proof.
  destruct s as [|a s]; simpl; [discriminate|].
  destruct (Ascii.eqb a c); [discriminate|].
  destruct (split c s); discriminate.
Qed.

Lemma split_without (c : ascii) (s : string) :
  includes c s = false -> split c s = [s].
Proof.
  induction s as [|a s IH]; simpl; [reflexivity|].
  destruct (Ascii.eqb a c); [discriminate|]. intros H. now rewrite (IH H).
Qed.

Lemma split_at (c : ascii) (a b : string) :
  includes c a = false -> split c (a ++ String c b) = a :: split c b.
Proof.
  induction a as [|x a IH]; simpl.
  - intros _. now rewrite Ascii.eqb_refl.
  - destruct (Ascii.eqb x c); [discriminate|]. intros H. now rewrite (IH H).
Qed.

Lemma split_pieces_clean (c : ascii) (s : string) :
  Forall (fun piece => includes c piece = false) (split c s).
Proof.
  induction s as [|a s IH]; simpl.
  - now constructor.
  - destruct (Ascii.eqb a c) eqn:E.
    + now constructor.
    + destruct (split c s) as [|p ps]; [now repeat constructor; simpl; rewrite E|].
      inversion IH; subst. constructor; [simpl; now rewrite E | assumption].
Qed.

Lemma join_split (c : ascii) (s : string) :
  join (String c "") (split c s) = s.
Proof.
  unfold join. induction s as [|a s IH]; simpl; [reflexivity|].
  destruct (Ascii.eqb_spec a c) as [->|_].
  - simpl. destruct (split c s) eqn:E; [now destruct (split_nonempty c s)|].
    now rewrite <- IH.
  - destruct (split c s) as [|p ps] eqn:E; [now destruct (split_nonempty c s)|].
    simpl in *. destruct ps; [now rewrite IH | now rewrite <- IH].
Qed.

Lemma append_assoc (a b c : string) : (a ++ b) ++ c = a ++ b ++ c.
Proof. induction a as [|x a IH]; simpl; [reflexivity | now rewrite IH]. Qed.

(** X1.  Formatting a key that is already formatted changes nothing. *)
Theorem formatComponentKey_idempotent (ambient : option string) (key : string) :
  formatComponentKey ambient (formatComponentKey ambient key)
  = formatComponentKey ambient key.
Proof.
  unfold formatComponentKey.
  destruct (includes ":" key) eqn:K; [now rewrite K|].
  destruct ambient as [fk|]; [|now rewrite K].
  destruct (truthy fk); [|now rewrite K].
  rewrite includes_append. simpl. now rewrite orb_true_r.
Qed.

(** X2.  When the document has a file key, the formatted key contains a
    [':'], and it always ends with the key that was given. *)
Theorem formatComponentKey_qualified (ns key : string) :
  truthy ns = true ->
  includes ":" (formatComponentKey (Some ns) key) = true /\
  exists prefix, formatComponentKey (Some ns) key = prefix ++ key.
Proof.
  intros T. unfold formatComponentKey. rewrite T.
  destruct (includes ":" key) eqn:K.
  - split; [exact K | now exists ""].
  - split.
    + rewrite includes_append. simpl. now rewrite orb_true_r.
    + exists (ns ++ ":"). now rewrite append_assoc.
Qed.

(** X3.  The library name of a key has no [':']: it is the whole key when
    the key has none, and otherwise the part before the first [':']. *)
Theorem getLibraryNameFromKey_prefix (key : string) :
  includes ":" (getLibraryNameFromKey key) = false /\
  (includes ":" key = false -> getLibraryNameFromKey key = key) /\
  (includes ":" key = true ->
   exists rest, key = getLibraryNameFromKey key ++ ":" ++ rest).
Proof.
  unfold getLibraryNameFromKey, part. split; [|split].
  - pose proof (split_pieces_clean ":" key) as F.
    destruct (split ":" key) as [|p ps] eqn:E; [now destruct (split_nonempty ":" key)|].
    simpl. now inversion F.
  - intros H. now rewrite (split_without _ _ H).
  - intros H. apply includes_first in H as (pre & post & -> & Hpre).
    exists post. now rewrite (split_at _ _ _ Hpre).
Qed.

Lemma getLibraryNameFromKey_prefix_witness :
  getLibraryNameFromKey "abc123" = "abc123" /\
  exists rest, "FK1:abc:123" = getLibraryNameFromKey "FK1:abc:123" ++ ":" ++ rest.
Proof.
  destruct (getLibraryNameFromKey_prefix "abc123") as (_ & H & _).
  destruct (getLibraryNameFromKey_prefix "FK1:abc:123") as (_ & _ & H').
  split; [exact (H eq_refl) | exact (H' eq_refl)].
Defined.

(** X4.  A bare key formatted with the file key of the document reads back
    that file key as its library. *)
Theorem getLibraryNameFromKey_formatted (ns key : string) :
  truthy ns = true ->
  includes ":" ns = false ->
  includes ":" key = false ->
  getLibraryNameFromKey (formatComponentKey (Some ns) key) = ns.
Proof.
  intros T N K. unfold formatComponentKey. rewrite K, T.
  unfold getLibraryNameFromKey, part. change (ns ++ ":" ++ key) with (ns ++ String ":" key).
  now rewrite (split_at _ _ _ N).
Qed.

Lemma getLibraryNameFromKey_formatted_witness :
  getLibraryNameFromKey (formatComponentKey (Some "FK1") "abc123") = "FK1".
Proof.
  exact (getLibraryNameFromKey_formatted "FK1" "abc123" eq_refl eq_refl eq_refl).
Defined.

Lemma formatComponentKey_qualified_witness :
  includes ":" (formatComponentKey (Some "FK1") "abc123") = true /\
  exists prefix, formatComponentKey (Some "FK1") "abc123" = prefix ++ "abc123".
Proof. exact (formatComponentKey_qualified "FK1" "abc123" eq_refl). Defined.

(** X5.  The label [getComponentName] builds is read back by the split on
    ['|'] that [part_001] shows: when the base name is not empty and has no
    ['|'], piece 0 is the base name; there is no variant line when the
    node has no variant entry, and the variant line is the property list
    when that list has no ['|']. *)
Theorem name_parts_of_label (node : SceneNode) :
  exposes_variantProperties node = true ->
  truthy (getComponentName (with_variantProperties None node)) = true ->
  includes "|" (getComponentName (with_variantProperties None node)) = false ->
  clean_name (getComponentName node)
  = getComponentName (with_variantProperties None node) /\
  (label_suffix (node_variantProperties node) = "" ->
   variant_line (getComponentName node) = None) /\
  (forall o,
     node_variantProperties node = Some o -> entries o <> [] ->
     includes "|" (join ", " (map (fun kv => fst kv ++ "=" ++ snd kv) (entries o)))
     = false ->
     variant_line (getComponentName node)
     = Some (join ", " (map (fun kv => fst kv ++ "=" ++ snd kv) (entries o)))).
Proof.
  intros E T P.
  assert (L : getComponentName node
              = getComponentName (with_variantProperties None node)
                ++ label_suffix (node_variantProperties node)).
  { rewrite <- (with_own_variantProperties node) at 1.
    apply (getComponentName_split node _ E). }
  rewrite L. clear L.
  set (base := getComponentName (with_variantProperties None node)) in *.
  unfold clean_name, variant_line, name_parts, part, js_or.
  rewrite truthy_append, T. simpl orb. cbv iota.
  split; [|split].
  - unfold label_suffix. destruct (node_variantProperties node) as [o|].
    + destruct (entries o) as [|kv es].
      * rewrite append_empty_r. now rewrite (split_without _ _ P).
      * change ("|" ++ ?x) with (String "|" x).
        now rewrite (split_at _ _ _ P).
    + rewrite append_empty_r. now rewrite (split_without _ _ P).
  - intros ->. rewrite append_empty_r. now rewrite (split_without _ _ P).
  - intros o -> Hne Hp. unfold label_suffix.
    destruct (entries o) as [|[k v] es] eqn:Eo; [contradiction|].
    change ("|" ++ ?x) with (String "|" x).
    rewrite (split_at _ _ _ P), (split_without _ _ Hp).
    change (nth_error (base :: [?x]) 1) with (Some x). cbv iota.
    simpl map. rewrite join_cons_truthy; [reflexivity|].
    rewrite truthy_append. simpl. apply orb_true_r.
Qed.

Lemma name_parts_of_label_witness :
  clean_name (getComponentName (Component variant_component)) = "Button" /\
  variant_line (getComponentName (Component variant_component))
  = Some "a=1, b=2".
Proof.
  destruct (name_parts_of_label (Component variant_component)
              eq_refl eq_refl eq_refl) as (H1 & _ & H3).
  split; [exact H1 | exact (H3 ab_map eq_refl ltac:(discriminate) eq_refl)].
Defined.

(** ** Selection *)

Lemma handleSelectionChange_infos (sel : list SceneNode) :
  handleSelectionChange sel
  = SelectionChange
      (map (fun node =>
              mkComponentInfo (interpolate (getComponentKey node))
                              (getComponentName node) (node_id node))
           (filter resolvable sel)).
Proof.
  unfold handleSelectionChange. f_equal.
  induction sel as [|node sel IH]; simpl; [reflexivity|].
  unfold resolvable at 1. rewrite IH.
  destruct (getComponentKey node) as [k|] eqn:K; [|reflexivity].
  destruct (truthy k); [|reflexivity]. simpl. now rewrite K.
Qed.

(** X6.  A selection change lists exactly the selected nodes that resolve
    to a non-empty key, in selection order, each with its id, its label
    and its key; no listed key is empty. *)
Theorem handleSelectionChange_lists_resolvable (sel : list SceneNode) :
  exists infos,
    handleSelectionChange sel = SelectionChange infos /\
    map info_id infos = map node_id (filter resolvable sel) /\
    map info_name infos = map getComponentName (filter resolvable sel) /\
    map (fun i => Some (info_key i)) infos
    = map getComponentKey (filter resolvable sel) /\
    Forall (fun i => info_key i <> "") infos /\
    length infos <= length sel.
Proof.
  eexists. split; [apply handleSelectionChange_infos|].
  rewrite !map_map. simpl.
  split; [reflexivity|]. split; [reflexivity|]. split; [|split].
  - apply map_ext_in. intros node H. apply filter_In in H as [_ R].
    unfold resolvable in R. now destruct (getComponentKey node).
  - apply Forall_map, Forall_forall. intros node H. simpl.
    apply filter_In in H as [_ R]. unfold resolvable in R.
    destruct (getComponentKey node) as [k|]; [|discriminate].
    now apply truthy_true.
  - rewrite length_map. apply filter_length_le.
Qed.

(** X7.  When [copySelectedComponentKey] succeeds with a key, the first
    entry a selection change lists for the same selection is the first
    selected node, with that key. *)
Theorem copySelectedComponentKey_agrees (sel : list SceneNode) (k : string) :
  copySelectedComponentKey sel = KeyCopied true (Some k) None ->
  exists first rest infos,
    sel = first :: rest /\
    handleSelectionChange sel
    = SelectionChange
        (mkComponentInfo k (getComponentName first) (node_id first) :: infos).
Proof.
  destruct sel as [|first rest]; simpl; [discriminate|].
  intros H. exists first, rest.
  rewrite handleSelectionChange_infos. simpl. unfold resolvable at 1.
  destruct (getComponentKey first) as [k'|] eqn:K; [|discriminate].
  destruct (truthy k'); [|discriminate]. injection H as ->.
  eexists. split; [reflexivity|]. simpl. now rewrite K.
Qed.

Lemma copySelectedComponentKey_agrees_witness :
  exists first rest infos,
    [Component plain_component; Other some_frame] = first :: rest /\
    handleSelectionChange [Component plain_component; Other some_frame]
    = SelectionChange
        (mkComponentInfo "abc123" (getComponentName first) (node_id first)
         :: infos).
Proof.
  exact (copySelectedComponentKey_agrees
           [Component plain_component; Other some_frame] "abc123" eq_refl).
Defined.

(** ** What the generator leaves alone *)

Lemma untouched_refl (w : World) : untouched w w.
Proof. now repeat split. Qed.

Lemma untouched_trans (w1 w2 w3 : World) :
  untouched w1 w2 -> untouched w2 w3 -> untouched w1 w3.
Proof.
  intros (P1 & S1 & Z1 & T1) (P2 & S2 & Z2 & T2).
  repeat split; congruence.
Qed.

Lemma discreet_ret {A : Type} (a : A) : discreet (ret a).
Proof. intros w. now repeat split. Qed.

Lemma discreet_throw {A : Type} (e : Exn) : discreet (@throw A e).
Proof. intros w. now repeat split. Qed.

Lemma discreet_bind {A B : Type} (m : M A) (k : A -> M B) :
  discreet m -> (forall a, discreet (k a)) -> discreet (bind m k).
Proof.
  intros Hm Hk w. unfold bind. specialize (Hm w).
  destruct (m w) as [[a|e] w1]; simpl in *; [|exact Hm].
  exact (untouched_trans _ _ _ Hm (Hk a w1)).
Qed.

Lemma discreet_try {A : Type} (m : M A) (h : Exn -> M A) :
  discreet m -> (forall e, discreet (h e)) -> discreet (try_catch m h).
Proof.
  intros Hm Hh w. unfold try_catch. specialize (Hm w).
  destruct (m w) as [[a|e] w1]; simpl in *; [exact Hm|].
  exact (untouched_trans _ _ _ Hm (Hh e w1)).
Qed.

Lemma discreet_set_prop id prop v : discreet (set_prop id prop v).
Proof.
  intros w. unfold set_prop. simpl.
  destruct (update_forest id (assign prop v) (page w)); now repeat split.
Qed.

Lemma discreet_appendChild parent child : discreet (appendChild parent child).
Proof. intros w. now repeat split. Qed.

Lemma discreet_console_log args : discreet (console_log args).
Proof. intros w. now repeat split. Qed.

Lemma discreet_console_error args : discreet (console_error args).
Proof. intros w. now repeat split. Qed.

Lemma discreet_createFrame host : discreet (createFrame host).
Proof.
  intros w. unfold createFrame.
  destruct (createFails host (next_id w)); now repeat split.
Qed.

Lemma discreet_createText host : discreet (createText host).
Proof.
  intros w. unfold createText.
  destruct (createFails host (next_id w)); now repeat split.
Qed.

Lemma discreet_import host key : discreet (importComponentByKeyAsync host key).
Proof.
  intros w. unfold importComponentByKeyAsync.
  destruct (importComponentByKey host key); now repeat split.
Qed.

Lemma discreet_createInstance host c : discreet (createInstance host c).
Proof.
  intros w. unfold createInstance.
  destruct (createInstanceFails host c); now repeat split.
Qed.

Lemma discreet_loadFontAsync host f : discreet (loadFontAsync host f).
Proof.
  intros w. unfold loadFontAsync.
  destruct (loadFont host f); now repeat split.
Qed.

Ltac discreet_steps :=
  repeat first
    [ apply discreet_bind; [|intro]
    | apply discreet_try; [|intro]
    | apply discreet_ret
    | apply discreet_set_prop
    | apply discreet_appendChild
    | apply discreet_console_log
    | apply discreet_console_error
    | apply discreet_createFrame
    | apply discreet_createText
    | apply discreet_import
    | apply discreet_createInstance
    | apply discreet_loadFontAsync ].

Lemma yields_ret {A : Type} (P : A -> Prop) (a : A) : P a -> yields P (ret a).
Proof. intros H w a' w' E. injection E as <- _. exact H. Qed.

Lemma yields_bind {A B : Type} (P : B -> Prop) (m : M A) (k : A -> M B) :
  (forall a, yields P (k a)) -> yields P (bind m k).
Proof.
  intros Hk w b w' E. unfold bind in E.
  destruct (m w) as [[a|e] w1]; [|discriminate]. exact (Hk a w1 b w' E).
Qed.

Lemma visualize_mapping_discreet host frame m b :
  discreet (visualize_mapping host frame m b).
Proof. unfold visualize_mapping. cbv zeta. discreet_steps. Qed.

Lemma visualize_mapping_any host frame m b w :
  exists b' w',
    visualize_mapping host frame m b w = (Returned b', w') /\
    (b' = b \/ b' = true) /\ untouched w w'.
Proof.
  pose proof (visualize_mapping_discreet host frame m b w) as D.
  assert (Y : forall a w', visualize_mapping host frame m b w = (Returned a, w')
                           -> a = b \/ a = true).
  { unfold visualize_mapping, try_catch. intros a w'.
    match goal with
    | |- (match ?body w with _ => _ end) = _ -> _ =>
        assert (Yb : yields (fun x => x = b) body)
          by (repeat (apply yields_bind; intro); now apply yields_ret);
        destruct (body w) as [[x|e] w1] eqn:E
    end.
    - intros H. injection H as <- _. left. exact (Yb _ _ _ E).
    - intros H. injection H as <- _. now right. }
  destruct (visualize_mapping host frame m b w) as [[a|e] w'] eqn:E.
  - exists a, w'. split; [reflexivity|]. split; [exact (Y a w' eq_refl) | exact D].
  - exfalso. revert E. unfold visualize_mapping, try_catch.
    match goal with
    | |- (match ?body w with _ => _ end) = _ -> _ =>
        destruct (body w) as [[x|e'] w1]
    end; discriminate.
Qed.

(** The loop on any host. *)
Lemma for_of_visualize_any (host : Host) (frame : NodeId)
  (ms : list Mapping) (b : bool) (w : World) :
  exists b' w',
    for_of ms b (visualize_mapping host frame) w = (Returned b', w') /\
    (b = true -> b' = true) /\
    (b' = b \/ b' = true) /\
    untouched w w'.
Proof.
  revert b w. induction ms as [|m ms IH]; intros b w.
  - exists b, w. split; [reflexivity|]. split; [tauto|]. split; [now left|].
    apply untouched_refl.
  - destruct (visualize_mapping_any host frame m b w) as (b1 & w1 & E1 & F1 & U1).
    destruct (IH b1 w1) as (b2 & w2 & E2 & K2 & F2 & U2).
    exists b2, w2. simpl. unfold bind. rewrite E1, E2.
    split; [reflexivity|]. split; [|split].
    + intros ->. apply K2. now destruct F1.
    + destruct F2 as [-> | ->]; [exact F1 | now right].
    + exact (untouched_trans _ _ _ U1 U2).
Qed.

(** X8.  On every host the loop over the mappings returns: no failure of
    a block escapes it.  The flag it returns is the flag it started with or
    [true], so a flag once set stays set, and the loop posts nothing and
    leaves the selection, the viewport and the storage alone. *)
Theorem for_of_visualize_mapping_any (host : Host) (frame : NodeId)
  (ms : list Mapping) (b : bool) (w : World) :
  exists b' w',
    for_of ms b (visualize_mapping host frame) w = (Returned b', w') /\
    (b = true -> b' = true) /\
    (b' = b \/ b' = true) /\
    untouched w w'.
Proof. exact (for_of_visualize_any host frame ms b w). Qed.

Lemma for_of_visualize_mapping_any_witness :
  exists b' w',
    for_of [bad_good; bad_good] true (visualize_mapping stingy_host 0)
      empty_world
    = (Returned b', w') /\
    b' = true.
Proof.
  destruct (for_of_visualize_mapping_any stingy_host 0 [bad_good; bad_good]
              true empty_world) as (b' & w' & E & K & _).
  exists b', w'. split; [exact E | exact (K eq_refl)].
Defined.

(** The run after a setup that works. *)
Lemma generateVisualComparison_after_setup (host : Host) (ms : list Mapping)
  (w : World) :
  setup_fails host w = false ->
  exists (hasErrors : bool) w',
    generateVisualComparison host ms w = (Returned tt, w') /\
    posted w'
    = (posted w
       ++ [Message (if hasErrors then warning_text else success_text)
                   (if hasErrors then "warning" else "info") 3000])%list /\
    selection w' = [next_id w] /\
    zoomed_to w' = [next_id w] /\
    storage w' = storage w.
Proof.
  unfold setup_fails. intros H. destruct w as [n pg s z f p c st]. simpl in H.
  apply orb_false_elim in H as [H Hc]. apply orb_false_elim in H as [H Hb].
  apply orb_false_elim in H as [Hr Hm].
  apply negb_false_iff in Hr, Hm, Hb.
  destruct (for_of_visualize_any host n ms false
              (mkWorld (S n) (Node n KFrame (root_props host) [] :: pg) s z
                 (((f ++ [Inter "Regular"]) ++ [Inter "Medium"]) ++ [Inter "Bold"])
                 p c st))
    as (b & w2 & E2 & _ & _ & P2 & S2 & Z2 & T2).
  exists b.
  exists (mkWorld (next_id w2) (page w2) [n] [n] (loaded_fonts w2)
            (posted w2
             ++ [Message (if b then warning_text else success_text)
                         (if b then "warning" else "info") 3000])
            (console w2) (storage w2)).
  split.
  - unfold generateVisualComparison. run_with ltac:(exact E2).
  - simpl in *. rewrite P2, T2. now repeat split.
Qed.

(** X9.  When the three faces load and the root frame is created, the run
    returns whatever fails later, posts exactly one summary, the success
    text or the warning text and never the failure text, selects the root
    frame and zooms to it, and leaves the storage alone. *)
Theorem generateVisualComparison_summary (host : Host) (ms : list Mapping)
  (w : World) :
  setup_fails host w = false ->
  exists (hasErrors : bool) w',
    generateVisualComparison host ms w = (Returned tt, w') /\
    posted w'
    = (posted w
       ++ [Message (if hasErrors then warning_text else success_text)
                   (if hasErrors then "warning" else "info") 3000])%list /\
    selection w' = [next_id w] /\
    zoomed_to w' = [next_id w] /\
    storage w' = storage w.
Proof. exact (generateVisualComparison_after_setup host ms w). Qed.

Lemma generateVisualComparison_summary_witness :
  exists (hasErrors : bool) w',
    generateVisualComparison stingy_host [bad_good] empty_world
    = (Returned tt, w') /\
    posted w'
    = ([] ++ [Message (if hasErrors then warning_text else success_text)
                      (if hasErrors then "warning" else "info") 3000])%list /\
    selection w' = [0] /\ zoomed_to w' = [0] /\ storage w' = [].
Proof.
  exact (generateVisualComparison_summary stingy_host [bad_good] empty_world
           eq_refl).
Defined.

(** A refused pair frame. *)
Lemma visualize_mapping_refused (host : Host) (frame : NodeId) (m : Mapping)
  (b : bool) (w : World) :
  createFails host (next_id w) = true ->
  visualize_mapping host frame m b w
  = (Returned true,
     mkWorld (S (next_id w)) (page w) (selection w) (zoomed_to w)
       (loaded_fonts w) (posted w)
       (console w
        ++ [LogError [LStr "Error creating visual for mapping:";
                      LExn (CreationRefused (next_id w))]])
       (storage w)).
Proof.
  intros H. destruct w as [n pg s z f p c st]. simpl in *.
  unfold visualize_mapping. run.
Qed.

Lemma for_of_all_refused (host : Host) (frame n0 : NodeId) (ms : list Mapping) :
  (forall k, n0 < k -> createFails host k = true) ->
  forall (b : bool) (w : World),
    n0 < next_id w ->
    exists w',
      for_of ms b (visualize_mapping host frame) w
      = (Returned (match ms with [] => b | _ => true end), w') /\
      page w' = page w /\
      length (console w') = length (console w) + length ms /\
      untouched w w'.
Proof.
  intros R. induction ms as [|m ms IH]; intros b w Hn.
  - exists w. simpl. rewrite Nat.add_0_r. repeat split; reflexivity.
  - simpl. unfold bind.
    rewrite (visualize_mapping_refused host frame m b w (R _ Hn)).
    match goal with
    | |- context [for_of ms true _ ?W] =>
        destruct (IH true W) as (w' & E & P & C & U); [simpl; lia|]
    end.
    exists w'. rewrite E. split; [now destruct ms|].
    split; [exact P|]. split.
    + rewrite C. simpl. rewrite length_app. simpl. lia.
    + exact U.
Qed.

(** X10.  When the setup works and the host refuses every later creation
    request, every mapping is still tried and skipped: the root frame stays
    empty, one error is logged per mapping, and the summary is the warning
    when there is a mapping and the success text when there is none. *)
Theorem generateVisualComparison_all_refused (host : Host) (ms : list Mapping)
  (w : World) :
  setup_fails host w = false ->
  (forall k, next_id w < k -> createFails host k = true) ->
  exists w',
    generateVisualComparison host ms w = (Returned tt, w') /\
    page w' = Node (next_id w) KFrame (root_props host) [] :: page w /\
    length (console w') = length (console w) + length ms /\
    posted w'
    = (posted w
       ++ [match ms with
           | [] => Message success_text "info" 3000
           | _ => Message warning_text "warning" 3000
           end])%list.
Proof.
  unfold setup_fails. intros H R. destruct w as [n pg s z f p c st]. simpl in *.
  apply orb_false_elim in H as [H Hc]. apply orb_false_elim in H as [H Hb].
  apply orb_false_elim in H as [Hr Hm].
  apply negb_false_iff in Hr, Hm, Hb.
  destruct (for_of_all_refused host n n ms R false
              (mkWorld (S n) (Node n KFrame (root_props host) [] :: pg) s z
                 (((f ++ [Inter "Regular"]) ++ [Inter "Medium"]) ++ [Inter "Bold"])
                 p c st))
    as (w2 & E2 & P2 & C2 & M2 & S2 & Z2 & T2); [simpl; lia|].
  exists (mkWorld (next_id w2) (page w2) [n] [n] (loaded_fonts w2)
            (posted w2
             ++ [Message
                   (if match ms with [] => false | _ => true end
                    then warning_text else success_text)
                   (if match ms with [] => false | _ => true end
                    then "warning" else "info") 3000])
            (console w2) (storage w2)).
  split.
  - unfold generateVisualComparison. run_with ltac:(exact E2).
  - simpl in *. rewrite M2. split; [exact P2|]. split; [exact C2|].
    now destruct ms.
Qed.

Lemma generateVisualComparison_all_refused_witness :
  exists w',
    generateVisualComparison root_only_host [bad_good; bad_good] empty_world
    = (Returned tt, w') /\
    page w' = Node 0 KFrame (root_props root_only_host) [] :: [] /\
    length (console w') = 0 + 2 /\
    posted w' = ([] ++ [Message warning_text "warning" 3000])%list.
Proof.
  apply (generateVisualComparison_all_refused root_only_host
           [bad_good; bad_good] empty_world eq_refl).
  intros k H. destruct k; [inversion H | reflexivity].
Defined.

(** X11.  With no mapping and a working setup the run creates the empty
    root frame, selects it, logs nothing and reports success. *)
Theorem generateVisualComparison_empty (host : Host) (w : World) :
  setup_fails host w = false ->
  exists w',
    generateVisualComparison host [] w = (Returned tt, w') /\
    page w' = Node (next_id w) KFrame (root_props host) [] :: page w /\
    console w' = console w /\
    selection w' = [next_id w] /\
    posted w' = (posted w ++ [Message success_text "info" 3000])%list.
Proof.
  unfold setup_fails. intros H. destruct w as [n pg s z f p c st]. simpl in *.
  apply orb_false_elim in H as [H Hc]. apply orb_false_elim in H as [H Hb].
  apply orb_false_elim in H as [Hr Hm].
  apply negb_false_iff in Hr, Hm, Hb.
  exists (mkWorld (S n) (Node n KFrame (root_props host) [] :: pg) [n] [n]
            (((f ++ [Inter "Regular"]) ++ [Inter "Medium"]) ++ [Inter "Bold"])
            (p ++ [Message success_text "info" 3000]) c st).
  split; [unfold generateVisualComparison; cbn [for_of]; run|].
  now repeat split.
Qed.

Lemma generateVisualComparison_empty_witness :
  exists w',
    generateVisualComparison root_only_host [] empty_world
    = (Returned tt, w') /\
    page w' = Node 0 KFrame (root_props root_only_host) [] :: [] /\
    console w' = [] /\
    selection w' = [0] /\
    posted w' = ([] ++ [Message success_text "info" 3000])%list.
Proof.
  exact (generateVisualComparison_empty root_only_host empty_world eq_refl).
Defined.

(** ** Saving and loading *)

Lemma storage_get_set_other (key k : string) (v : JsValue)
  (s : list (string * JsValue)) :
  String.eqb k key = false ->
  storage_get k (storage_set key v s) = storage_get k s.
Proof.
  intros N. induction s as [|[k' v'] s IH]; simpl.
  - rewrite String.eqb_sym. now rewrite N.
  - destruct (String.eqb k' key) eqn:E; simpl.
    + apply String.eqb_eq in E as ->. rewrite String.eqb_sym. now rewrite N.
    + now rewrite IH.
Qed.

(** X12.  A save never throws and never posts.  When the write goes
    through, the key reads back the saved value and every other key reads
    as before; when the write fails, the storage is as it was and one
    error is logged. *)
Theorem saveMappings_effect (host : Host) (data : JsValue) (w : World) :
  fst (saveMappings host data w) = Returned tt /\
  posted (snd (saveMappings host data w)) = posted w /\
  page (snd (saveMappings host data w)) = page w /\
  (storageWriteFails host = false ->
   storage_get storage_key (storage (snd (saveMappings host data w))) = data /\
   (forall k, String.eqb k storage_key = false ->
      storage_get k (storage (snd (saveMappings host data w)))
      = storage_get k (storage w)) /\
   console (snd (saveMappings host data w)) = console w) /\
  (storageWriteFails host = true ->
   storage (snd (saveMappings host data w)) = storage w /\
   console (snd (saveMappings host data w))
   = (console w
      ++ [LogError [LStr "Error saving mappings:"; LExn StorageFailed]])%list).
Proof.
  unfold saveMappings, try_catch, setAsync.
  destruct (storageWriteFails host); simpl.
  - repeat split; try discriminate; reflexivity.
  - split; [reflexivity|]. split; [reflexivity|]. split; [reflexivity|].
    split; [|discriminate]. intros _.
    split; [apply storage_get_set|]. split; [|reflexivity].
    intros k N. now apply storage_get_set_other.
Qed.

Lemma saveMappings_effect_witness :
  storage_get storage_key
    (storage (snd (saveMappings bad_good_host (JStr "x") legacy_world)))
  = JStr "x" /\
  storage (snd (saveMappings unwritable_host (JStr "x") legacy_world))
  = storage legacy_world.
Proof.
  split.
  - exact (proj1 (proj1 (proj2 (proj2 (proj2
             (saveMappings_effect bad_good_host (JStr "x") legacy_world))))
             eq_refl)).
  - exact (proj1 (proj2 (proj2 (proj2 (proj2
             (saveMappings_effect unwritable_host (JStr "x") legacy_world))))
             eq_refl)).
Defined.

(** X13.  When writes and reads go through, a load after a save posts the
    saved value, wrapped with the seven-days-ago timestamp when it is a
    bare array, and what was stored before the save makes no difference. *)
Theorem saveMappings_then_loadSavedMappings (host : Host) (data : JsValue)
  (w : World) :
  storageWriteFails host = false ->
  storageReadFails host = false ->
  posted (snd (loadSavedMappings host (snd (saveMappings host data w))))
  = (posted w
     ++ [LoadedMappings
           (if isArray data then
              JObject [("mappings", data);
                       ("timestamp", JNum (now host - 604800000))]
            else data)])%list /\
  forall earlier,
    posted (snd (loadSavedMappings host
                   (snd (saveMappings host data
                           (snd (saveMappings host earlier w))))))
    = posted (snd (loadSavedMappings host (snd (saveMappings host data w)))).
Proof.
  intros Hw Hr.
  assert (G : forall w0,
             posted (snd (loadSavedMappings host (snd (saveMappings host data w0))))
             = (posted w0
                ++ [LoadedMappings
                      (if isArray data then
                         JObject [("mappings", data);
                                  ("timestamp", JNum (now host - 604800000))]
                       else data)])%list).
  { intros w0. rewrite (proj2 (loadSavedMappings_read host _ Hr)).
    unfold saveMappings, try_catch, setAsync. rewrite Hw. simpl.
    now rewrite storage_get_set. }
  split; [apply G|]. intros earlier. rewrite !G. f_equal.
  unfold saveMappings, try_catch, setAsync. now rewrite Hw.
Qed.

Lemma saveMappings_then_loadSavedMappings_witness :
  posted (snd (loadSavedMappings bad_good_host
                 (snd (saveMappings bad_good_host legacy_blob empty_world))))
  = [LoadedMappings
       (JObject [("mappings", legacy_blob);
                 ("timestamp", JNum (1700000000000 - 604800000))])].
Proof.
  exact (proj1 (saveMappings_then_loadSavedMappings bad_good_host legacy_blob
                  empty_world eq_refl eq_refl)).
Defined.


(** ** The message handler *)

(** The run when the setup fails. *)
Lemma generateVisualComparison_setup_failure (host : Host) (ms : list Mapping)
  (w : World) :
  setup_fails host w = true ->
  exists w',
    generateVisualComparison host ms w = (Returned tt, w') /\
    posted w' = (posted w ++ [Message failure_text "error" 3000])%list.
Proof.
  unfold setup_fails. intros H. destruct w as [n pg s z f p c st].
  simpl in H.
  destruct (loadFont host (Inter "Regular")) eqn:R;
    [destruct (loadFont host (Inter "Medium")) eqn:Md;
     [destruct (loadFont host (Inter "Bold")) eqn:B|]|];
    simpl in H; try discriminate;
    (eexists; split; [unfold generateVisualComparison; run|]);
    reflexivity.
Qed.

(** X15.  The message handler never throws.  [copySelectedKey] gets one
    [keyCopied] reply, [generateVisuals] one [message], [loadMappings] one
    [loadedMappings], [getInitialSelection] one [selectionChange];
    [saveMappings] and a message of any other type get no reply. *)
Theorem onmessage_replies (host : Host) (scene : list SceneNode)
  (msg : PluginMessage) (w : World) :
  exists w',
    onmessage host scene msg w = (Returned tt, w') /\
    if expects_reply msg then
      exists reply,
        posted w' = (posted w ++ [reply])%list /\ is_reply_to msg reply = true
    else posted w' = posted w.
Proof.
  destruct msg as [|ms|data| | |t]; simpl.
  - eexists. split; [reflexivity|]. eexists. split; [reflexivity|].
    unfold copySelectedComponentKey.
    destruct scene as [|first rest]; [reflexivity|].
    destruct (getComponentKey first) as [k|]; [|reflexivity].
    destruct (truthy k); reflexivity.
  - destruct (setup_fails host w) eqn:F.
    + destruct (generateVisualComparison_setup_failure host ms w F) as (w' & E & P).
      exists w'. split; [exact E|]. eexists. split; [exact P | reflexivity].
    + destruct (generateVisualComparison_after_setup host ms w F)
        as (b & w' & E & P & _).
      exists w'. split; [exact E|]. eexists. split; [exact P | reflexivity].
  - destruct (saveMappings_returns host data w) as (R & P).
    exists (snd (saveMappings host data w)). split; [|exact P].
    destruct (saveMappings host data w) as [o w']. simpl in R. now subst o.
  - destruct (storageReadFails host) eqn:F.
    + destruct (loadSavedMappings_unreadable host w F) as [R P].
      exists (snd (loadSavedMappings host w)). split.
      * destruct (loadSavedMappings host w) as [o w']. simpl in R. now subst o.
      * eexists. split; [exact P | reflexivity].
    + destruct (loadSavedMappings_read host w F) as [R P].
      exists (snd (loadSavedMappings host w)). split.
      * destruct (loadSavedMappings host w) as [o w']. simpl in R. now subst o.
      * eexists. split; [exact P | reflexivity].
  - eexists. split; [reflexivity|]. eexists. split; reflexivity.
  - exists w. split; reflexivity.
Qed.

(** ** Inserting components by key *)

Section InsertionFacts.

Variable host : Host.
Variable instance_size : ImportedComponent -> Z * Z.

Lemma insert_key_run (key : string) (st : InsertState) (w : World) :
  exists st' w',
    insert_key host instance_size key st w = (Returned st', w') /\
    untouched w w' /\
    match import_and_instantiate host key with
    | Some c =>
        insertedComponents st' = (insertedComponents st ++ [next_id w])%list /\
        errors st' = errors st /\
        currentX st'
        = (if currentX st + fst (instance_size c) + 20
              >? fst (viewport_center host) + 400
           then fst (viewport_center host)
           else currentX st + fst (instance_size c) + 20)%Z /\
        exists t, page w' = t :: page w /\ tree_id t = next_id w
                  /\ tree_x t = Some (currentX st)
    | None =>
        insertedComponents st' = insertedComponents st /\
        errors st' = (errors st ++ [invalid_key key])%list /\
        currentX st' = currentX st /\
        page w' = page w
    end.
Proof.
  destruct w as [n pg s z f p c l]. unfold import_and_instantiate, untouched.
  destruct (importComponentByKey host (formatComponentKey (fileKey host) key))
    as [co|] eqn:Eo; [destruct (createInstanceFails host co) eqn:Fo|].
  - eexists. eexists. split; [unfold insert_key; run|]. simpl. now repeat split.
  - destruct (currentX st + fst (instance_size co) + 20
              >? fst (viewport_center host) + 400)%Z eqn:C;
      (eexists; eexists; split;
       [unfold insert_key; run_with ltac:(rewrite C; reflexivity)|]);
      simpl; repeat split; eexists; repeat split.
  - eexists. eexists. split; [unfold insert_key; run|]. simpl. now repeat split.
Qed.

(** The loop: the instances it places, newest last, and its errors. *)
Lemma for_of_insert_key_run (keys : list string) :
  forall (st : InsertState) (w : World),
    exists st' w' news,
      for_of keys st (insert_key host instance_size) w = (Returned st', w') /\
      untouched w w' /\
      page w' = (rev news ++ page w)%list /\
      insertedComponents st'
      = (insertedComponents st ++ map tree_id news)%list /\
      length news = length (filter (insertable host) keys) /\
      errors st'
      = (errors st
         ++ map invalid_key
              (filter (fun key => negb (insertable host key)) keys))%list /\
      ((forall c, 0 <= fst (instance_size c) + 20)%Z ->
       in_row host (currentX st) ->
       Forall (fun t => exists x, tree_x t = Some x /\ in_row host x) news).
Proof.
  induction keys as [|key keys IH]; intros st w.
  - exists st, w, []. simpl. rewrite !app_nil_r.
    split; [reflexivity|]. split; [apply untouched_refl|].
    repeat split; try reflexivity. intros _ _. constructor.
  - destruct (insert_key_run key st w) as (st1 & w1 & E1 & U1 & H1).
    destruct (IH st1 w1) as (st2 & w2 & news & E2 & U2 & P2 & I2 & L2 & R2 & B2).
    simpl. unfold bind. rewrite E1, E2.
    destruct (import_and_instantiate host key) as [c|] eqn:Ek.
    + assert (Hi : insertable host key = true)
        by (unfold insertable; now rewrite Ek).
      rewrite Hi. simpl.
      destruct H1 as (I1 & R1 & X1 & t & P1 & T1 & TX).
      exists st2, w2, (t :: news).
      split; [reflexivity|].
      split; [exact (untouched_trans _ _ _ U1 U2)|].
      split; [simpl; rewrite <- app_assoc, P2, P1; reflexivity|].
      split; [simpl; rewrite I2, I1, T1, <- app_assoc; reflexivity|].
      split; [simpl; now rewrite L2|].
      split; [now rewrite R2, R1|].
      intros Hs Hx. constructor; [now exists (currentX st)|].
      apply (B2 Hs). rewrite X1. unfold in_row in *. specialize (Hs c).
      destruct (Z.gtb_spec (currentX st + fst (instance_size c) + 20)
                  (fst (viewport_center host) + 400)); lia.
    + assert (Hi : insertable host key = false)
        by (unfold insertable; now rewrite Ek).
      rewrite Hi. simpl.
      destruct H1 as (I1 & R1 & X1 & P1).
      exists st2, w2, news.
      split; [reflexivity|].
      split; [exact (untouched_trans _ _ _ U1 U2)|].
      split; [now rewrite P2, P1|].
      split; [now rewrite I2, I1|].
      split; [exact L2|].
      split; [now rewrite R2, R1, <- app_assoc|].
      intros Hs Hx. apply (B2 Hs). now rewrite X1.
Qed.

(** X16.  [insertComponentsByKeys] never throws and accounts for every
    key once: the inserted count is the number of keys whose import and
    instantiation go through, the errors name the other keys in input
    order, the two counts add up to the number of keys, and [success] says
    whether anything was inserted. *)
Theorem insertComponentsByKeys_counts (keys : list string) (w : World) :
  exists r w',
    insertComponentsByKeys host instance_size keys w = (Returned r, w') /\
    insertedCount r = length (filter (insertable host) keys) /\
    result_errors r
    = map invalid_key
        (filter (fun key => negb (insertable host key)) keys) /\
    errorCount r = length (result_errors r) /\
    insertedCount r + errorCount r = length keys /\
    result_success r = existsb (insertable host) keys /\
    storage w' = storage w.
Proof.
  destruct (for_of_insert_key_run keys
              (mkInsertState [] [] (fst (viewport_center host))
                             (snd (viewport_center host))) w)
    as (st & w1 & news & E & (P & S & Z & T) & Pg & I & L & R & _).
  simpl in I, R.
  assert (Len : length (insertedComponents st)
                = length (filter (insertable host) keys))
    by now rewrite I, length_map.
  assert (Ex : Nat.ltb 0 (length (filter (insertable host) keys))
               = existsb (insertable host) keys).
  { clear. induction keys as [|k ks IH]; simpl; [reflexivity|].
    destruct (insertable host k); simpl; [reflexivity | exact IH]. }
  unfold insertComponentsByKeys, try_catch, bind. rewrite E.
  destruct (insertedComponents st) as [|i rest] eqn:Ei; simpl;
    (eexists; eexists; split; [reflexivity|]); simpl;
    rewrite R, <- ?Len, ?length_map; simpl.
  - rewrite <- Ex, <- Len. simpl.
    repeat split; try assumption.
    pose proof (filter_length (insertable host) keys) as F.
    rewrite <- Len in F. simpl in F. exact F.
  - rewrite <- Ex, <- Len. simpl.
    repeat split; try assumption.
    pose proof (filter_length (insertable host) keys) as F.
    rewrite <- Len in F. simpl in F. exact F.
Qed.


End InsertionFacts.

